(** * Retry tokens, stateless-reset tokens and flow labels of
      [src/quic/node_quic_crypto.cc]

    A shallow embedding of [DeriveTokenKey], [GenerateRetryToken],
    [InvalidRetryToken], [GenerateResetToken] and [GenerateFlowLabel],
    and the properties the specification states about them.

    The functions compose primitives of ngtcp2 and OpenSSL (HKDF, the AEAD
    of the initial crypto context) and read two pieces of ambient state:
    the monotonic clock [uv_hrtime] and the entropy source.  The primitives
    are the fields of the record [Externals]; the ambient state is the
    record [World], threaded through a small state monad whose results
    also record the two ways a call can end without returning: a write
    past the end of a fixed-size array and a failed [CHECK_LE]. *)

From Stdlib Require Import ZArith List Bool Lia.
From Stdlib.Strings Require Import Byte.
Import ListNotations.

Local Open Scope Z_scope.

(* ================================================================= *)
(** ** Bytes and machine integers *)

Definition bytes := list byte.

Definition Z_of_byte (b : byte) : Z := Z.of_N (Byte.to_N b).

Definition byte_of_Z (z : Z) : byte :=
  match Byte.of_N (Z.to_N (z mod 256)) with
  | Some b => b
  | None => x00
  end.

(** [size_t] and [uint64_t] are 64 bits wide; [ssize_t] is the signed type
    of the same width. *)
Definition uint64_modulus : Z := 2 ^ 64.

Definition to_uint64 (z : Z) : Z := z mod uint64_modulus.

Definition to_ssize_t (z : Z) : Z :=
  let u := to_uint64 z in
  if u <? 2 ^ 63 then u else u - uint64_modulus.

Definition is_uint64 (z : Z) : Prop := 0 <= z < uint64_modulus.

(** The object representation of an integer, as [memcpy] and
    [reinterpret_cast<uint8_t*>] see it on a little-endian target. *)
Fixpoint store_le (n : nat) (v : Z) : bytes :=
  match n with
  | O => []
  | S k => byte_of_Z v :: store_le k (v / 256)
  end.

Fixpoint load_le (l : bytes) : Z :=
  match l with
  | [] => 0
  | b :: r => Z_of_byte b + 256 * load_le r
  end.

Definition sizeof_uint64 : nat := 8.
Definition sizeof_uint32 : nat := 4.

(** [memcmp(a, b, n) != 0]. *)
Fixpoint bytes_eqb (a b : bytes) : bool :=
  match a, b with
  | [], [] => true
  | x :: a', y :: b' => Byte.eqb x y && bytes_eqb a' b'
  | _, _ => false
  end.

Definition memcmp_differs (a b : bytes) (n : nat) : bool :=
  negb (bytes_eqb (firstn n a) (firstn n b)).

(** What a callee that takes a C string sees of [s.c_str()]: the bytes
    before the first NUL. *)
Fixpoint c_str (s : bytes) : bytes :=
  match s with
  | [] => []
  | b :: r =>
      match b with
      | x00 => []
      | _ => b :: c_str r
      end
  end.

(* ================================================================= *)
(** ** Outcomes, the ambient state and its monad *)

Inductive outcome (A : Type) : Type :=
| Returned (a : A)
| Overrun   (** a write past the end of a fixed-size array *)
| Aborted.  (** a failed [CHECK_LE] ends the process *)

Arguments Returned {A} a.
Arguments Overrun {A}.
Arguments Aborted {A}.

(** [hrtime] is what [uv_hrtime()] returns, in nanoseconds; [entropy] is
    the sequence of bytes [EntropySource] will hand out. *)
Record World : Type := mkWorld {
  hrtime : Z;
  entropy : nat -> byte
}.

Definition M (A : Type) : Type := World -> outcome (A * World).

Definition ret {A} (a : A) : M A := fun w => Returned (a, w).

Definition bind {A B} (m : M A) (k : A -> M B) : M B :=
  fun w =>
    match m w with
    | Returned (a, w') => k a w'
    | Overrun => Overrun
    | Aborted => Aborted
    end.

Definition lift {A} (o : outcome A) : M A :=
  fun w =>
    match o with
    | Returned a => Returned (a, w)
    | Overrun => Overrun
    | Aborted => Aborted
    end.

Declare Scope quic_scope.
Delimit Scope quic_scope with quic.
Notation "x <- m ;; k" := (bind m (fun x => k))
  (at level 61, m at next level, right associativity) : quic_scope.
Local Open Scope quic_scope.

Definition uv_hrtime : M Z := fun w => Returned (hrtime w, w).

Definition EntropySource (n : nat) : M bytes :=
  fun w =>
    Returned (map (entropy w) (seq 0 n),
              mkWorld (hrtime w) (fun i => entropy w (n + i)%nat)).

(** [p = std::copy_n(src, n, p)] into an array of [capacity] bytes, of
    which [written] are already behind the cursor [p]. *)
Definition copy_n (src : bytes) (n capacity : nat) (written : bytes)
  : outcome bytes :=
  if (length written + n <=? capacity)%nat
  then Returned (written ++ firstn n src)
  else Overrun.

(** A callee that is handed a fixed-size array of [capacity] bytes, and no
    length, and writes [out] into it ([ngtcp2_crypto_decrypt] into
    [uint8_t plaintext[4096]]). *)
Definition written_into (capacity : nat) (out : bytes) : outcome bytes :=
  copy_n out (length out) capacity [].

(* ================================================================= *)
(** ** Data of the surrounding code *)

(** [SocketAddress]: [raw()] and [length()]. *)
Record SocketAddress : Type := mkSocketAddress { raw : bytes }.

Definition SocketAddress_length (a : SocketAddress) : nat := length (raw a).

(** [QuicCID] wraps an [ngtcp2_cid]: the [datalen] leading bytes of
    [data]. *)
Record QuicCID : Type := mkQuicCID { data : bytes }.

Definition datalen (c : QuicCID) : nat := length (data c).

(** [ngtcp2_cid_init(cid, data, datalen)]. *)
Definition ngtcp2_cid_init (src : bytes) (n : nat) : QuicCID :=
  mkQuicCID (firstn n src).

(** Constants of the public header [<ngtcp2/ngtcp2.h>] of the ngtcp2
    library ([NGTCP2_SECONDS] is one second in the nanoseconds of
    [uv_hrtime]) and, for [sizeof(sockaddr_in6)], of the platform's socket
    headers. *)
Definition NGTCP2_MIN_CIDLEN : Z := 1.
Definition NGTCP2_MAX_CIDLEN : Z := 20.
Definition NGTCP2_SECONDS : Z := 1000000000.
Definition NGTCP2_STATELESS_RESET_TOKENLEN : nat := 16.
Definition sizeof_sockaddr_in6 : nat := 28.

(** Modelled from the spec: [kLabelMask] is declared in a header outside
    this file; the flow label is "masked to the protocol's allowed
    bit-width (e.g. 20 bits for IPv6 flow labels)". *)
Definition kLabelMask : Z := 0xFFFFF.

(** The addresses and connection IDs the types of the source admit:
    [SocketAddress::length()] is [sizeof(sockaddr_in)] or
    [sizeof(sockaddr_in6)], and an [ngtcp2_cid] holds at most
    [NGTCP2_MAX_CIDLEN] bytes. *)
Definition wf_address (a : SocketAddress) : Prop :=
  (SocketAddress_length a <= sizeof_sockaddr_in6)%nat.

Definition wf_cid (c : QuicCID) : Prop :=
  Z.of_nat (datalen c) <= NGTCP2_MAX_CIDLEN.

(** Modelled from the spec: [SocketAddress] is declared outside this
    file; it is a "fixed-format raw byte encoding + explicit length,
    family-specific".  The family field leads the raw bytes of every
    [sockaddr] (two bytes: [sa_family], preceded on BSD by [sa_len]), and
    [length()] is a function, [GetLength], of the family. *)
Definition sizeof_sa_family : nat := 2.

Definition family_specific (GetLength : bytes -> nat) (a : SocketAddress)
  : Prop :=
  (sizeof_sa_family <= SocketAddress_length a)%nat
  /\ SocketAddress_length a = GetLength (firstn sizeof_sa_family (raw a)).

(** A CID length the protocol allows: zero, or between the two bounds. *)
Definition valid_cid_length (n : Z) : Prop :=
  n = 0 \/ NGTCP2_MIN_CIDLEN <= n <= NGTCP2_MAX_CIDLEN.

(** The primitives the file calls, specialised to the initial crypto
    context ([ngtcp2_crypto_ctx_initial]), and the two constants of
    [node_quic_util.h] it uses.  A primitive that reports an error is
    [None]. *)
Record Externals : Type := mkExternals {
  kTokenRandLen : nat;
  kTokenSecretLen : nat;
  ngtcp2_crypto_aead_taglen : nat;
  ngtcp2_crypto_packet_protection_ivlen : nat;
  (* secret, salt *)
  ngtcp2_crypto_hkdf_extract : bytes -> bytes -> option bytes;
  (* secret; the key and the iv *)
  ngtcp2_crypto_derive_packet_protection_key :
    bytes -> option (bytes * bytes);
  (* plaintext, key, nonce, associated data *)
  ngtcp2_crypto_encrypt : bytes -> bytes -> bytes -> bytes -> option bytes;
  (* ciphertext, key, nonce, associated data *)
  ngtcp2_crypto_decrypt : bytes -> bytes -> bytes -> bytes -> option bytes;
  (* secret, cid *)
  ngtcp2_crypto_generate_stateless_reset_token :
    bytes -> QuicCID -> option bytes;
  (* destlen, secret, info *)
  ngtcp2_crypto_hkdf_expand : nat -> bytes -> bytes -> option bytes
}.

(* ================================================================= *)
(** ** The functions of the file *)

Definition plaintext_capacity : nat := 4096.

Section Functions.

Context (E : Externals).

Definition DeriveTokenKey (rand_data token_secret : bytes)
  : option (bytes * bytes) :=
  match ngtcp2_crypto_hkdf_extract E
          (firstn (kTokenSecretLen E) token_secret) rand_data with
  | None => None
  | Some secret => ngtcp2_crypto_derive_packet_protection_key E secret
  end.

(** Returns [Some token] where the source returns [true] and has filled
    [token] and [tokenlen], [None] where it returns [false]. *)
Definition GenerateRetryToken
    (addr : SocketAddress) (ocid : QuicCID) (token_secret : bytes)
  : M (option bytes) :=
  let ivlen := ngtcp2_crypto_packet_protection_ivlen E in
  now <- uv_hrtime ;;
  p <- lift (copy_n (raw addr) (SocketAddress_length addr)
               plaintext_capacity []) ;;
  p <- lift (copy_n (store_le sizeof_uint64 now) sizeof_uint64
               plaintext_capacity p) ;;
  p <- lift (copy_n (data ocid) (datalen ocid) plaintext_capacity p) ;;
  rand_data <- EntropySource (kTokenRandLen E) ;;
  match DeriveTokenKey rand_data token_secret with
  | None => ret None
  | Some (token_key, token_iv) =>
      let plaintextlen := length p in
      match ngtcp2_crypto_encrypt E p token_key (firstn ivlen token_iv)
              (raw addr) with
      | None => ret None
      | Some sealed =>
          let tokenlen :=
            (plaintextlen + ngtcp2_crypto_aead_taglen E)%nat in
          ret (Some (firstn tokenlen sealed ++ rand_data))
      end
  end.

(** The result pairs the returned [bool] with the value of [*ocid] when
    the function returns.  [ngtcp2_crypto_decrypt] is handed
    [uint8_t plaintext[4096]] without its size: a plaintext it produces is
    [written_into] that array. *)
Definition InvalidRetryToken
    (token : bytes) (addr : SocketAddress) (ocid : QuicCID)
    (token_secret : bytes) (verification_expiration : Z)
  : M (bool * QuicCID) :=
  if (length token <? kTokenRandLen E)%nat then ret (true, ocid) else
  let ivlen := ngtcp2_crypto_packet_protection_ivlen E in
  let ciphertextlen := (length token - kTokenRandLen E)%nat in
  let ciphertext := firstn ciphertextlen token in
  let rand_data := skipn ciphertextlen token in
  match DeriveTokenKey rand_data token_secret with
  | None => ret (true, ocid)
  | Some (token_key, token_iv) =>
      match ngtcp2_crypto_decrypt E ciphertext token_key
              (firstn ivlen token_iv) (raw addr) with
      | None => ret (true, ocid)
      | Some opened =>
          plaintext <- lift (written_into plaintext_capacity opened) ;;
          let addrlen := Z.of_nat (SocketAddress_length addr) in
          let plaintextlen :=
            to_uint64 (Z.of_nat ciphertextlen
                       - Z.of_nat (ngtcp2_crypto_aead_taglen E)) in
          if plaintextlen <? addrlen + Z.of_nat sizeof_uint64
          then ret (true, ocid) else
          let cil :=
            to_ssize_t (plaintextlen - addrlen - Z.of_nat sizeof_uint64) in
          if (negb (cil =? 0)
              && ((cil <? NGTCP2_MIN_CIDLEN) || (NGTCP2_MAX_CIDLEN <? cil)))
             || memcmp_differs plaintext (raw addr)
                  (SocketAddress_length addr)
          then ret (true, ocid) else
          let t :=
            load_le (firstn sizeof_uint64
                       (skipn (SocketAddress_length addr) plaintext)) in
          now <- uv_hrtime ;;
          if to_uint64 (t + to_uint64 (verification_expiration
                                       * NGTCP2_SECONDS)) <? now
          then ret (true, ocid) else
          ret (false,
               ngtcp2_cid_init
                 (skipn (SocketAddress_length addr + sizeof_uint64)
                    plaintext)
                 (Z.to_nat cil))
      end
  end.

(** [Some token] where the source returns [true]. *)
Definition GenerateResetToken (secret : bytes) (cid : QuicCID)
  : M (option bytes) :=
  ret (ngtcp2_crypto_generate_stateless_reset_token E
         (firstn NGTCP2_STATELESS_RESET_TOKENLEN secret) cid).

Definition kInfoLen : nat :=
  (sizeof_sockaddr_in6 * 2 + Z.to_nat NGTCP2_MAX_CIDLEN)%nat.

Definition CHECK_LE (a b : nat) : outcome unit :=
  if (a <=? b)%nat then Returned tt else Aborted.

Definition GenerateFlowLabel
    (local remote : SocketAddress) (cid : QuicCID) (secret : bytes)
    (secretlen : nat)
  : M Z :=
  let label := 0 in
  let infolen :=
    (SocketAddress_length local + SocketAddress_length remote
     + datalen cid)%nat in
  _ <- lift (CHECK_LE infolen kInfoLen) ;;
  p <- lift (copy_n (raw local) (SocketAddress_length local) kInfoLen []) ;;
  p <- lift (copy_n (raw remote) (SocketAddress_length remote) kInfoLen p) ;;
  p <- lift (copy_n (data cid) (datalen cid) kInfoLen p) ;;
  let label :=
    match ngtcp2_crypto_hkdf_expand E sizeof_uint32
            (firstn secretlen secret) (firstn infolen p) with
    | Some okm => load_le (firstn sizeof_uint32 okm)
    | None => label
    end in
  let label := Z.land label kLabelMask in
  ret label.

End Functions.

(* ================================================================= *)
(** ** What the functions assume of the primitives *)

Section Contracts.

Context (E : Externals).

(** [open] returns what [seal] was given, under the same key, nonce and
    associated data. *)
Definition aead_opens_sealed : Prop :=
  forall p key nonce aad sealed,
    ngtcp2_crypto_encrypt E p key nonce aad = Some sealed ->
    ngtcp2_crypto_decrypt E sealed key nonce aad = Some p.

(** The sealed text is the plaintext's length plus the tag. *)
Definition aead_seal_length : Prop :=
  forall p key nonce aad sealed,
    ngtcp2_crypto_encrypt E p key nonce aad = Some sealed ->
    length sealed = (length p + ngtcp2_crypto_aead_taglen E)%nat.

(** Whatever associated data it is given, [open] either refuses a sealed
    text or returns the plaintext that was sealed: the associated data
    enter the tag, not the decryption (so it is with the counter-mode
    AEADs of QUIC, the AES-GCM of the initial context among them). *)
Definition aead_open_yields_sealed : Prop :=
  forall p key nonce aad aad' sealed p',
    ngtcp2_crypto_encrypt E p key nonce aad = Some sealed ->
    ngtcp2_crypto_decrypt E sealed key nonce aad' = Some p' ->
    p' = p.

(** A stateless-reset token has [NGTCP2_STATELESS_RESET_TOKENLEN] bytes. *)
Definition reset_token_length : Prop :=
  forall secret cid token,
    ngtcp2_crypto_generate_stateless_reset_token E secret cid = Some token ->
    length token = NGTCP2_STATELESS_RESET_TOKENLEN.

(** [token] splits into a sealed text and [kTokenRandLen] bytes of random
    data, and the sealed text opens, under the key derived from that data
    and [token_secret] and with [addr] as associated data, to [plaintext],
    which fits the array it is written to. *)
Definition opens_to (token : bytes) (addr : SocketAddress)
    (token_secret plaintext : bytes) : Prop :=
  let ciphertextlen := (length token - kTokenRandLen E)%nat in
  (kTokenRandLen E <= length token)%nat /\
  (exists key iv,
     DeriveTokenKey E (skipn ciphertextlen token) token_secret
       = Some (key, iv) /\
     ngtcp2_crypto_decrypt E (firstn ciphertextlen token) key
       (firstn (ngtcp2_crypto_packet_protection_ivlen E) iv) (raw addr)
       = Some plaintext) /\
  (length plaintext <= plaintext_capacity)%nat /\
  ciphertextlen = (length plaintext + ngtcp2_crypto_aead_taglen E)%nat.

(** The layout [GenerateRetryToken] gives a plaintext. *)
Definition token_plaintext (addr : SocketAddress) (t : Z) (cid : QuicCID)
  : bytes :=
  raw addr ++ store_le sizeof_uint64 t ++ data cid.

(** What [GenerateRetryToken] returns once the plaintext [p] is assembled
    and [rand_data] is drawn ([GenerateRetryToken_fits] below). *)
Definition seal_token (addr : SocketAddress) (p rand_data token_secret : bytes)
  : option bytes :=
  match DeriveTokenKey E rand_data token_secret with
  | None => None
  | Some (token_key, token_iv) =>
      match ngtcp2_crypto_encrypt E p token_key
              (firstn (ngtcp2_crypto_packet_protection_ivlen E) token_iv)
              (raw addr) with
      | None => None
      | Some sealed =>
          Some (firstn (length p + ngtcp2_crypto_aead_taglen E) sealed
                ++ rand_data)
      end
  end.

(** The left-hand side of the time check: the timestamp embedded in
    [plaintext] behind the address, plus the window in nanoseconds, in
    [uint64_t] arithmetic. *)
Definition token_deadline (plaintext : bytes) (addr : SocketAddress)
    (verification_expiration : Z) : Z :=
  to_uint64
    (load_le (firstn sizeof_uint64
                (skipn (SocketAddress_length addr) plaintext))
     + to_uint64 (verification_expiration * NGTCP2_SECONDS)).

(** The checks of [InvalidRetryToken] that follow a successful open, as a
    function of the opened plaintext and the clock
    ([InvalidRetryToken_opened] below). *)
Definition verdict (plaintext : bytes) (addr : SocketAddress)
    (ocid : QuicCID) (verification_expiration now : Z) : bool * QuicCID :=
  let addrlen := Z.of_nat (SocketAddress_length addr) in
  let cil := Z.of_nat (length plaintext) - addrlen - 8 in
  if Z.of_nat (length plaintext) <? addrlen + 8 then (true, ocid)
  else if (negb (cil =? 0)
           && ((cil <? NGTCP2_MIN_CIDLEN) || (NGTCP2_MAX_CIDLEN <? cil)))
          || memcmp_differs plaintext (raw addr) (SocketAddress_length addr)
  then (true, ocid)
  else if to_uint64
            (load_le (firstn sizeof_uint64
                        (skipn (SocketAddress_length addr) plaintext))
             + to_uint64 (verification_expiration * NGTCP2_SECONDS))
          <? now
  then (true, ocid)
  else (false,
        ngtcp2_cid_init
          (skipn (SocketAddress_length addr + sizeof_uint64) plaintext)
          (Z.to_nat cil)).

End Contracts.

(* ================================================================= *)
(** ** A small instance of the primitives

    Enough to run the functions on concrete inputs: the key schedule
    concatenates, sealing appends a 32-byte tag that spells out the
    associated data, opening checks that tag. *)

Module Toy.

Definition zeros (n : nat) : bytes := repeat x00 n.

Definition taglen : nat := 32.

Definition tag (aad : bytes) : bytes :=
  byte_of_Z (Z.of_nat (length aad)) :: firstn 31 (aad ++ zeros 31).

Definition seal (p key nonce aad : bytes) : option bytes :=
  Some (p ++ tag aad).

Definition open (sealed key nonce aad : bytes) : option bytes :=
  if (length sealed <? taglen)%nat then None
  else
    let n := (length sealed - taglen)%nat in
    if bytes_eqb (skipn n sealed) (tag aad)
    then Some (firstn n sealed)
    else None.

Definition externals : Externals := {|
  kTokenRandLen := 32;
  kTokenSecretLen := 32;
  ngtcp2_crypto_aead_taglen := taglen;
  ngtcp2_crypto_packet_protection_ivlen := 12;
  ngtcp2_crypto_hkdf_extract := fun secret salt => Some (salt ++ secret);
  ngtcp2_crypto_derive_packet_protection_key := fun s => Some (s, s);
  ngtcp2_crypto_encrypt := seal;
  ngtcp2_crypto_decrypt := open;
  ngtcp2_crypto_generate_stateless_reset_token :=
    fun secret cid =>
      Some (firstn NGTCP2_STATELESS_RESET_TOKENLEN
              (data cid ++ secret ++ zeros NGTCP2_STATELESS_RESET_TOKENLEN));
  ngtcp2_crypto_hkdf_expand :=
    fun n secret info => Some (firstn n (info ++ secret ++ zeros n))
|}.

(** The concrete scenario of the specification: a secret of 32 zero
    bytes, the 4-byte IPv4 loopback address, the CID 1..8, generation at
    1_000_000. *)
Definition secret0 : bytes := zeros 32.
Definition loopback : SocketAddress := mkSocketAddress [x7f; x00; x00; x01].
Definition other_address : SocketAddress :=
  mkSocketAddress [x7f; x00; x00; x02].
Definition cid8 : QuicCID :=
  mkQuicCID [x01; x02; x03; x04; x05; x06; x07; x08].
Definition no_cid : QuicCID := mkQuicCID [].
Definition world_at (t : Z) : World := mkWorld t (fun _ => x2a).

(** The token [GenerateRetryToken] returns for [loopback] and [cid8] when
    the clock reads [t]. *)
Definition token_at (t : Z) : bytes :=
  match GenerateRetryToken externals loopback cid8 secret0 (world_at t) with
  | Returned (Some token, _) => token
  | _ => []
  end.

(** The same for the zero-length CID. *)
Definition bare_token_at (t : Z) : bytes :=
  match GenerateRetryToken externals loopback no_cid secret0 (world_at t) with
  | Returned (Some token, _) => token
  | _ => []
  end.

End Toy.

(** A token whose sealed part opens, in the small instance, to 4097
    bytes: the loopback address, a timestamp and 4085 further bytes. *)
Module ToyLong.

Definition opened : bytes :=
  raw Toy.loopback ++ store_le sizeof_uint64 1000000 ++ Toy.zeros 4085.

Definition token : bytes :=
  opened ++ Toy.tag (raw Toy.loopback) ++ Toy.zeros 32.

End ToyLong.

(* ================================================================= *)
(** ** Why a token is turned down *)

(** The failure kinds of the specification's error taxonomy. *)
Inductive rejection : Type :=
| TokenTooShort
| DerivationFailure
| AuthenticationFailure
| PlaintextTooShort
| InvalidCidLength
| AddressMismatch
| ExpiredToken.

Section Rejections.

Context (E : Externals).

(** [rejects token addr secret window now r]: the check named [r] of
    [InvalidRetryToken] fails on this input when the clock reads [now]. *)
Inductive rejects (token : bytes) (addr : SocketAddress)
    (token_secret : bytes) (verification_expiration now : Z)
  : rejection -> Prop :=
| rejects_short :
    (length token < kTokenRandLen E)%nat ->
    rejects token addr token_secret verification_expiration now
      TokenTooShort
| rejects_derivation :
    (kTokenRandLen E <= length token)%nat ->
    DeriveTokenKey E (skipn (length token - kTokenRandLen E) token)
      token_secret = None ->
    rejects token addr token_secret verification_expiration now
      DerivationFailure
| rejects_authentication key iv :
    (kTokenRandLen E <= length token)%nat ->
    DeriveTokenKey E (skipn (length token - kTokenRandLen E) token)
      token_secret = Some (key, iv) ->
    ngtcp2_crypto_decrypt E
      (firstn (length token - kTokenRandLen E) token) key
      (firstn (ngtcp2_crypto_packet_protection_ivlen E) iv) (raw addr)
      = None ->
    rejects token addr token_secret verification_expiration now
      AuthenticationFailure
| rejects_plaintext p :
    opens_to E token addr token_secret p ->
    Z.of_nat (length p) < Z.of_nat (SocketAddress_length addr) + 8 ->
    rejects token addr token_secret verification_expiration now
      PlaintextTooShort
| rejects_cid_length p :
    opens_to E token addr token_secret p ->
    let cil :=
      Z.of_nat (length p) - Z.of_nat (SocketAddress_length addr) - 8 in
    0 < cil ->
    cil < NGTCP2_MIN_CIDLEN \/ NGTCP2_MAX_CIDLEN < cil ->
    rejects token addr token_secret verification_expiration now
      InvalidCidLength
| rejects_address p :
    opens_to E token addr token_secret p ->
    Z.of_nat (SocketAddress_length addr) + 8 <= Z.of_nat (length p) ->
    firstn (SocketAddress_length addr) p <> raw addr ->
    rejects token addr token_secret verification_expiration now
      AddressMismatch
| rejects_expired p :
    opens_to E token addr token_secret p ->
    Z.of_nat (SocketAddress_length addr) + 8 <= Z.of_nat (length p) ->
    to_uint64
      (load_le (firstn sizeof_uint64
                  (skipn (SocketAddress_length addr) p))
       + to_uint64 (verification_expiration * NGTCP2_SECONDS)) < now ->
    rejects token addr token_secret verification_expiration now
      ExpiredToken.

End Rejections.

(* ================================================================= *)
(** ** The rest of the file: retry packets *)

(** What [open] returned is shorter than what it was given by the tag. *)
Definition aead_open_length (E : Externals) : Prop :=
  forall sealed key nonce aad p,
    ngtcp2_crypto_decrypt E sealed key nonce aad = Some p ->
    length sealed = (length p + ngtcp2_crypto_aead_taglen E)%nat.

(** [kScidLen] of [node_quic_util.h] and the writer of the wire format,
    [ngtcp2_crypto_write_retry]: given the capacity it is told, the three
    CIDs and the token, it returns [nwrite] and the bytes it wrote. *)
Record PacketWriter : Type := mkPacketWriter {
  kScidLen : nat;
  (* destlen, dcid, scid, odcid, token *)
  ngtcp2_crypto_write_retry :
    nat -> QuicCID -> QuicCID -> QuicCID -> bytes -> Z * bytes
}.

(** [QuicPacket]: [data()] and [length()]. *)
Record QuicPacket : Type := mkQuicPacket {
  packet_data : bytes;
  packet_length : Z
}.

Definition QuicPacket_Create (len : nat) : QuicPacket :=
  mkQuicPacket [] (Z.of_nat len).

Definition NGTCP2_MAX_PKTLEN_IPV4 : nat := 1252.

(** [uint8_t token[256]] of [GenerateRetryPacket]. *)
Definition retry_token_capacity : nat := 256.

Section RetryPacket.

Context (E : Externals) (P : PacketWriter).

(** [None] is the empty [unique_ptr].  [GenerateRetryToken] is handed
    [token] without its size, and [EntropySource] fills the [data] array
    of a fresh [QuicCID]. *)
Definition GenerateRetryPacket
    (token_secret : bytes) (dcid scid : QuicCID)
    (local_addr remote_addr : SocketAddress)
  : M (option QuicPacket) :=
  generated <- GenerateRetryToken E remote_addr dcid token_secret ;;
  match generated with
  | None => ret None
  | Some token =>
      token <- lift (written_into retry_token_capacity token) ;;
      let tokenlen := length token in
      cid_data <- EntropySource (kScidLen P) ;;
      cid_data <- lift (written_into (Z.to_nat NGTCP2_MAX_CIDLEN) cid_data) ;;
      let cid := mkQuicCID (firstn (kScidLen P) cid_data) in
      let pktlen :=
        (tokenlen + 2 * Z.to_nat NGTCP2_MAX_CIDLEN + datalen scid + 8)%nat in
      let packet := QuicPacket_Create pktlen in
      let '(nwrite, written) :=
        ngtcp2_crypto_write_retry P NGTCP2_MAX_PKTLEN_IPV4 scid cid dcid
          token in
      if nwrite <=? 0 then ret None
      else ret (Some (mkQuicPacket written nwrite))
  end.

End RetryPacket.

(** A writer for the small instance: the two CIDs and the token, one
    after the other. *)
Module ToyPacket.

Definition writer : PacketWriter := {|
  kScidLen := 20;
  ngtcp2_crypto_write_retry :=
    fun destlen dcid scid odcid token =>
      let written := data dcid ++ data scid ++ token in
      (Z.of_nat (length written), written)
|}.

End ToyPacket.

(* ================================================================= *)
(** ** The rest of the file: session tickets *)

Section SessionTicket.

(** The TLS engine's session object and
    [SSL_SESSION_set1_ticket_appdata]. *)
Variable SSL_SESSION : Type.
Variable SSL_SESSION_set1_ticket_appdata : SSL_SESSION -> bytes -> SSL_SESSION.

Record SessionTicketAppData : Type := mkSessionTicketAppData {
  set_ : bool;
  session_ : SSL_SESSION
}.

(** [SessionTicketAppData::Set]: the returned [bool] and the object
    afterwards. *)
Definition SessionTicketAppData_Set
    (a : SessionTicketAppData) (data : bytes) (len : nat)
  : bool * SessionTicketAppData :=
  if set_ a then (false, a)
  else
    let a' :=
      mkSessionTicketAppData true
        (SSL_SESSION_set1_ticket_appdata (session_ a) (firstn len data)) in
    (set_ a', a').

(** [Set] called with each of [datas] in turn: the results, and the object
    in the end. *)
Fixpoint Set_each (a : SessionTicketAppData) (datas : list bytes)
  : list bool * SessionTicketAppData :=
  match datas with
  | [] => ([], a)
  | d :: rest =>
      let '(r, a') := SessionTicketAppData_Set a d (length d) in
      let '(rs, a'') := Set_each a' rest in
      (r :: rs, a'')
  end.

End SessionTicket.

Inductive SSL_TICKET_STATUS : Type :=
| SSL_TICKET_FATAL_ERR_MALLOC
| SSL_TICKET_FATAL_ERR_OTHER
| SSL_TICKET_NONE
| SSL_TICKET_EMPTY
| SSL_TICKET_NO_DECRYPT
| SSL_TICKET_SUCCESS
| SSL_TICKET_SUCCESS_RENEW.

Inductive SSL_TICKET_RETURN : Type :=
| SSL_TICKET_RETURN_ABORT
| SSL_TICKET_RETURN_IGNORE
| SSL_TICKET_RETURN_IGNORE_RENEW
| SSL_TICKET_RETURN_USE
| SSL_TICKET_RETURN_USE_RENEW.

(** [SessionTicketAppData::Flag] and [SessionTicketAppData::Status];
    [TICKET_unnamed] stands for the values the inner [default:] catches. *)
Inductive Flag : Type := STATUS_NONE | STATUS_RENEW.

Inductive Status : Type :=
| TICKET_USE
| TICKET_USE_RENEW
| TICKET_IGNORE
| TICKET_IGNORE_RENEW
| TICKET_unnamed.

(** [DecryptSessionTicket]: what it returns to the TLS engine, and the
    flags with which it called the session's [GetSessionTicketAppData]
    (the session's answer is the argument of that name). *)
Definition DecryptSessionTicket
    (GetSessionTicketAppData : Flag -> Status) (status : SSL_TICKET_STATUS)
  : SSL_TICKET_RETURN * list Flag :=
  let on_success (flag : Flag) :=
    (match GetSessionTicketAppData flag with
     | TICKET_IGNORE => SSL_TICKET_RETURN_IGNORE
     | TICKET_IGNORE_RENEW => SSL_TICKET_RETURN_IGNORE_RENEW
     | TICKET_USE => SSL_TICKET_RETURN_USE
     | TICKET_USE_RENEW => SSL_TICKET_RETURN_USE_RENEW
     | TICKET_unnamed => SSL_TICKET_RETURN_IGNORE
     end, [flag]) in
  match status with
  | SSL_TICKET_EMPTY => (SSL_TICKET_RETURN_IGNORE_RENEW, [])
  | SSL_TICKET_NO_DECRYPT => (SSL_TICKET_RETURN_IGNORE_RENEW, [])
  | SSL_TICKET_SUCCESS_RENEW => on_success STATUS_RENEW
  | SSL_TICKET_SUCCESS => on_success STATUS_NONE
  | _ => (SSL_TICKET_RETURN_IGNORE, [])
  end.

(* ================================================================= *)
(** ** The rest of the file: setting up the TLS object *)

Inductive ngtcp2_crypto_side : Type :=
| NGTCP2_CRYPTO_SIDE_CLIENT
| NGTCP2_CRYPTO_SIDE_SERVER.

(** What [InitializeTLS] reads of the session: its side, ALPN and
    hostname, and [is_option_set] for the three options it asks about. *)
Record QuicSession : Type := mkQuicSession {
  side : ngtcp2_crypto_side;
  alpn : bytes;
  hostname : bytes;
  QUICCLIENTSESSION_OPTION_REQUEST_OCSP : bool;
  QUICSERVERSESSION_OPTION_REQUEST_CERT : bool;
  QUICSERVERSESSION_OPTION_REJECT_UNAUTHORIZED : bool
}.

Record QuicState : Type := mkQuicState { warn_trace_tls : bool }.

(** Constants of [<openssl/ssl.h>]. *)
Definition SSL_VERIFY_NONE : Z := 0.
Definition SSL_VERIFY_PEER : Z := 1.
Definition SSL_VERIFY_FAIL_IF_NO_PEER_CERT : Z := 2.

(** The calls made on the TLS object and around it, in order. *)
Inductive tls_call : Type :=
| Call_SSL_set_app_data
| Call_SSL_set_cert_cb
| Call_SSL_set_verify (mode : Z)
| Call_EnableTrace
| Call_ProcessEmitWarning
| Call_SSL_set_connect_state
| Call_SetALPN (protocols : bytes)
| Call_X509_VERIFY_PARAM_set_hostflags (flags : Z)
| Call_SSL_set_tlsext_host_name (name : bytes)
| Call_X509_VERIFY_PARAM_set1_host (name : bytes)
| Call_SSL_set_tlsext_status_type_ocsp
| Call_SSL_set_accept_state
| Call_ngtcp2_conn_set_tls_native_handle
| Call_ngtcp2_encode_transport_params (capacity : nat)
| Call_SSL_set_quic_transport_params (len : Z).

(** What the callees answer: [SocketAddress::is_numeric_host], the result
    of [X509_VERIFY_PARAM_set1_host], [nwrite] of
    [ngtcp2_encode_transport_params] for a buffer of the given size, and
    the result of [SSL_set_quic_transport_params] for a length. *)
Record TlsEngine : Type := mkTlsEngine {
  is_numeric_host : bytes -> bool;
  X509_VERIFY_PARAM_set1_host : bytes -> Z;
  ngtcp2_encode_transport_params : QuicSession -> nat -> Z;
  SSL_set_quic_transport_params : Z -> Z
}.

Definition CHECK_EQ (a b : Z) : outcome unit :=
  if a =? b then Returned tt else Aborted.

Section TlsSetup.

Context (T : TlsEngine).

Definition SetTransportParams (session : QuicSession)
  : list tls_call * bool :=
  let nwrite := ngtcp2_encode_transport_params T session 512 in
  if 0 <=? nwrite
  then ([Call_ngtcp2_encode_transport_params 512;
         Call_SSL_set_quic_transport_params nwrite],
        SSL_set_quic_transport_params T nwrite =? 1)
  else ([Call_ngtcp2_encode_transport_params 512], false).

(** [is_numeric_host] and [SSL_set_tlsext_host_name] take the C string
    [hostname.c_str()]; [X509_VERIFY_PARAM_set1_host] takes it with
    [hostname.length()], the whole string. *)
Definition SetHostname (hostname : bytes) : outcome (list tls_call) :=
  let numeric := is_numeric_host T (c_str hostname) in
  let sni := if numeric then [] else c_str hostname in
  let name := if numeric then [] else hostname in
  match CHECK_EQ (X509_VERIFY_PARAM_set1_host T name) 1 with
  | Returned _ =>
      Returned [Call_X509_VERIFY_PARAM_set_hostflags 0;
                Call_SSL_set_tlsext_host_name sni;
                Call_X509_VERIFY_PARAM_set1_host name]
  | Overrun => Overrun
  | Aborted => Aborted
  end.

(** [trace_tls] is [env->options()->trace_tls]. *)
Definition InitializeTLS
    (trace_tls : bool) (session : QuicSession) (quic_state : QuicState)
  : outcome (list tls_call * QuicState) :=
  let calls :=
    [Call_SSL_set_app_data; Call_SSL_set_cert_cb;
     Call_SSL_set_verify SSL_VERIFY_NONE] in
  let '(calls, quic_state) :=
    if trace_tls then
      if warn_trace_tls quic_state
      then (calls ++ [Call_EnableTrace; Call_ProcessEmitWarning],
            mkQuicState false)
      else (calls ++ [Call_EnableTrace], quic_state)
    else (calls, quic_state) in
  let finish (calls : list tls_call) :=
    Returned
      (calls ++ [Call_ngtcp2_conn_set_tls_native_handle]
       ++ fst (SetTransportParams session), quic_state) in
  match side session with
  | NGTCP2_CRYPTO_SIDE_CLIENT =>
      match SetHostname (hostname session) with
      | Returned host_calls =>
          finish
            (calls
             ++ [Call_SSL_set_connect_state; Call_SetALPN (alpn session)]
             ++ host_calls
             ++ (if QUICCLIENTSESSION_OPTION_REQUEST_OCSP session
                 then [Call_SSL_set_tlsext_status_type_ocsp] else []))
      | Overrun => Overrun
      | Aborted => Aborted
      end
  | NGTCP2_CRYPTO_SIDE_SERVER =>
      finish
        (calls ++ [Call_SSL_set_accept_state]
         ++ (if QUICSERVERSESSION_OPTION_REQUEST_CERT session
             then
               let verify_mode := SSL_VERIFY_PEER in
               let verify_mode :=
                 if QUICSERVERSESSION_OPTION_REJECT_UNAUTHORIZED session
                 then Z.lor verify_mode SSL_VERIFY_FAIL_IF_NO_PEER_CERT
                 else verify_mode in
               [Call_SSL_set_verify verify_mode]
             else []))
  end.

(** [InitializeTLS] for each session in turn, under one [QuicState]. *)
Fixpoint InitializeTLS_each
    (trace_tls : bool) (sessions : list QuicSession) (quic_state : QuicState)
  : outcome (list tls_call * QuicState) :=
  match sessions with
  | [] => Returned ([], quic_state)
  | session :: rest =>
      match InitializeTLS trace_tls session quic_state with
      | Returned (calls, quic_state') =>
          match InitializeTLS_each trace_tls rest quic_state' with
          | Returned (calls', quic_state'') =>
              Returned (calls ++ calls', quic_state'')
          | Overrun => Overrun
          | Aborted => Aborted
          end
      | Overrun => Overrun
      | Aborted => Aborted
      end
  end.

End TlsSetup.

(** The mode the TLS object is left with: that of the last
    [SSL_set_verify]. *)
Definition final_verify_mode (calls : list tls_call) : option Z :=
  fold_left
    (fun mode call =>
       match call with
       | Call_SSL_set_verify m => Some m
       | _ => mode
       end)
    calls None.

Definition is_warning (call : tls_call) : bool :=
  match call with
  | Call_ProcessEmitWarning => true
  | _ => false
  end.

(** The names given to the TLS object for SNI and for checking the
    certificate. *)
Definition sni_names (calls : list tls_call) : list bytes :=
  flat_map
    (fun call =>
       match call with
       | Call_SSL_set_tlsext_host_name name => [name]
       | _ => []
       end)
    calls.

Definition verified_names (calls : list tls_call) : list bytes :=
  flat_map
    (fun call =>
       match call with
       | Call_X509_VERIFY_PARAM_set1_host name => [name]
       | _ => []
       end)
    calls.

Module ToyTls.

Definition engine : TlsEngine := {|
  is_numeric_host :=
    fun host => match host with x31 :: _ => true | _ => false end;
  X509_VERIFY_PARAM_set1_host := fun _ => 1;
  ngtcp2_encode_transport_params := fun _ capacity => 64;
  SSL_set_quic_transport_params := fun _ => 1
|}.

Definition client : QuicSession :=
  mkQuicSession NGTCP2_CRYPTO_SIDE_CLIENT [x68; x33] [x61; x2e; x62]
    true false true.

Definition server : QuicSession :=
  mkQuicSession NGTCP2_CRYPTO_SIDE_SERVER [x68; x33] [] false true true.

(** A client whose hostname holds a NUL: the bytes of "a\0b". *)
Definition nul_client : QuicSession :=
  mkQuicSession NGTCP2_CRYPTO_SIDE_CLIENT [x68; x33] [x61; x00; x62]
    false false false.

End ToyTls.

(* ================================================================= *)
(** ** Bytes, integers and lists *)

Lemma Z_of_byte_range (b : byte) : 0 <= Z_of_byte b < 256.
Proof.
  unfold Z_of_byte. pose proof (Byte.to_N_bounded b). lia.
Qed.

Lemma Z_of_byte_of_Z (z : Z) : Z_of_byte (byte_of_Z z) = z mod 256.
Proof.
  unfold Z_of_byte, byte_of_Z.
  pose proof (Z.mod_pos_bound z 256 ltac:(lia)) as Hr.
  destruct (Byte.of_N (Z.to_N (z mod 256))) as [b|] eqn:Hb.
  - apply Byte.to_of_N in Hb. rewrite Hb. lia.
  - apply Byte.of_N_None_iff in Hb. lia.
Qed.

Lemma store_le_length (n : nat) (v : Z) : length (store_le n v) = n.
Proof.
  revert v. induction n as [|n IH]; intros v; simpl; [reflexivity|].
  now rewrite IH.
Qed.

Lemma firstn_store_le (n : nat) (v : Z) :
  firstn n (store_le n v) = store_le n v.
Proof.
  rewrite <- (store_le_length n v) at 1. apply firstn_all.
Qed.

Lemma load_le_range (l : bytes) :
  0 <= load_le l < 2 ^ (8 * Z.of_nat (length l)).
Proof.
  induction l as [|b l IH].
  - simpl. lia.
  - cbn [load_le length]. pose proof (Z_of_byte_range b).
    replace (8 * Z.of_nat (S (length l)))
      with (8 + 8 * Z.of_nat (length l)) by lia.
    rewrite Z.pow_add_r by lia. change (2 ^ 8) with 256. nia.
Qed.

Lemma load_store_le (n : nat) (v : Z) :
  load_le (store_le n v) = v mod 2 ^ (8 * Z.of_nat n).
Proof.
  revert v. induction n as [|n IH]; intros v.
  - simpl. now rewrite Z.mod_1_r.
  - cbn [store_le load_le]. rewrite IH, Z_of_byte_of_Z.
    replace (8 * Z.of_nat (S n)) with (8 + 8 * Z.of_nat n) by lia.
    rewrite Z.pow_add_r by lia. change (2 ^ 8) with 256.
    rewrite Z.rem_mul_r by lia. reflexivity.
Qed.

Lemma load_store_uint64 (t : Z) :
  is_uint64 t -> load_le (store_le sizeof_uint64 t) = t.
Proof.
  intros Ht. rewrite load_store_le. apply Z.mod_small. exact Ht.
Qed.

Lemma bytes_eqb_eq (a b : bytes) : bytes_eqb a b = true <-> a = b.
Proof.
  revert b. induction a as [|x a IH]; intros [|y b]; simpl;
    try (split; [discriminate|discriminate]); [tauto|].
  rewrite andb_true_iff, IH. split.
  - intros [Hxy ->]. apply Byte.byte_dec_bl in Hxy. now subst.
  - intros H. injection H as -> ->. split; [|reflexivity].
    now apply Byte.byte_dec_lb.
Qed.

Lemma memcmp_differs_false (a b : bytes) (n : nat) :
  memcmp_differs a b n = false <-> firstn n a = firstn n b.
Proof.
  unfold memcmp_differs. rewrite negb_false_iff. apply bytes_eqb_eq.
Qed.

Lemma memcmp_differs_true (a b : bytes) (n : nat) :
  memcmp_differs a b n = true <-> firstn n a <> firstn n b.
Proof.
  unfold memcmp_differs. rewrite negb_true_iff.
  rewrite <- bytes_eqb_eq. destruct (bytes_eqb _ _); split; congruence.
Qed.

Lemma to_uint64_small (z : Z) : is_uint64 z -> to_uint64 z = z.
Proof. intros H. apply Z.mod_small. exact H. Qed.

Lemma to_uint64_range (z : Z) : is_uint64 (to_uint64 z).
Proof. apply Z.mod_pos_bound. reflexivity. Qed.

Lemma to_ssize_t_small (z : Z) : 0 <= z < 2 ^ 63 -> to_ssize_t z = z.
Proof.
  intros H. unfold to_ssize_t. rewrite to_uint64_small.
  - destruct (Z.ltb_spec z (2 ^ 63)); lia.
  - unfold is_uint64, uint64_modulus. lia.
Qed.

Lemma EntropySource_length (n : nat) (w : World) :
  exists rand_data w',
    EntropySource n w = Returned (rand_data, w')
    /\ length rand_data = n /\ hrtime w' = hrtime w.
Proof.
  eexists _, _. split; [reflexivity|]. split; [|reflexivity].
  now rewrite length_map, length_seq.
Qed.

Lemma copy_n_all (src written : bytes) (capacity : nat) :
  (length written + length src <= capacity)%nat ->
  copy_n src (length src) capacity written = Returned (written ++ src).
Proof.
  intros H. unfold copy_n.
  destruct (Nat.leb_spec (length written + length src) capacity); [|lia].
  now rewrite firstn_all.
Qed.

Lemma copy_n_overrun (src written : bytes) (n capacity : nat) :
  (capacity < length written + n)%nat ->
  copy_n src n capacity written = Overrun.
Proof.
  intros H. unfold copy_n.
  destruct (Nat.leb_spec (length written + n) capacity); [lia|reflexivity].
Qed.

(* ================================================================= *)
(** ** The two retry-token functions, step by step *)

Section RetryToken.

Context (E : Externals).

Lemma written_into_fits (p : bytes) :
  (length p <= plaintext_capacity)%nat ->
  written_into plaintext_capacity p = Returned p.
Proof.
  intros H. unfold written_into. now rewrite copy_n_all.
Qed.

(** Once the token has opened, what is left of [InvalidRetryToken] is
    [verdict] at the clock's reading; the world is as it was. *)
Lemma InvalidRetryToken_opened token addr ocid token_secret window w p :
  opens_to E token addr token_secret p ->
  InvalidRetryToken E token addr ocid token_secret window w
  = Returned (verdict p addr ocid window (hrtime w), w).
Proof.
  intros (Hlen & (key & iv & Hkey & Hopen) & Hfit & Hct).
  cbv zeta in Hkey, Hopen, Hct.
  unfold InvalidRetryToken.
  destruct (Nat.ltb_spec (length token) (kTokenRandLen E)); [lia|].
  rewrite Hkey, Hopen. unfold bind, lift.
  rewrite (written_into_fits p Hfit). cbv zeta. rewrite Hct.
  assert (Hpl : to_uint64
                  (Z.of_nat (length p + ngtcp2_crypto_aead_taglen E)
                   - Z.of_nat (ngtcp2_crypto_aead_taglen E))
                = Z.of_nat (length p)).
  { rewrite to_uint64_small; [lia|].
    unfold is_uint64, uint64_modulus, plaintext_capacity in *. lia. }
  rewrite Hpl. unfold verdict. change (Z.of_nat sizeof_uint64) with 8.
  destruct (Z.ltb_spec (Z.of_nat (length p))
              (Z.of_nat (SocketAddress_length addr) + 8)) as [Hs|Hs];
    [reflexivity|].
  rewrite (to_ssize_t_small
             (Z.of_nat (length p) - Z.of_nat (SocketAddress_length addr) - 8))
    by (unfold plaintext_capacity in Hfit; lia).
  match goal with |- context [if ?c || ?d then _ else _] =>
    destruct (c || d); [reflexivity|] end.
  unfold uv_hrtime, ret.
  match goal with |- context [?a <? hrtime w] =>
    destruct (a <? hrtime w); reflexivity end.
Qed.

(** What [GenerateRetryToken] did when it returned [true]. *)
Lemma GenerateRetryToken_returned addr ocid token_secret w token w' :
  GenerateRetryToken E addr ocid token_secret w
  = Returned (Some token, w') ->
  let p := token_plaintext addr (hrtime w) ocid in
  (length p <= plaintext_capacity)%nat /\
  hrtime w' = hrtime w /\
  exists rand_data key iv sealed,
    length rand_data = kTokenRandLen E /\
    DeriveTokenKey E rand_data token_secret = Some (key, iv) /\
    ngtcp2_crypto_encrypt E p key
      (firstn (ngtcp2_crypto_packet_protection_ivlen E) iv) (raw addr)
      = Some sealed /\
    token = firstn (length p + ngtcp2_crypto_aead_taglen E) sealed
            ++ rand_data.
Proof.
  unfold GenerateRetryToken, bind, lift, uv_hrtime, copy_n, ret.
  cbn [length Nat.add app]. unfold SocketAddress_length, datalen.
  destruct (Nat.leb_spec (length (raw addr)) plaintext_capacity)
    as [H1|H1]; [|easy].
  rewrite firstn_all.
  destruct (Nat.leb_spec (length (raw addr) + sizeof_uint64)
              plaintext_capacity) as [H2|H2]; [|easy].
  rewrite firstn_store_le, length_app, store_le_length.
  destruct (Nat.leb_spec
              (length (raw addr) + sizeof_uint64 + length (data ocid))
              plaintext_capacity) as [H3|H3]; [|easy].
  rewrite firstn_all, <- app_assoc.
  destruct (EntropySource_length (kTokenRandLen E) w)
    as (rand_data & w1 & Hent & Hrl & Hw1).
  rewrite Hent.
  destruct (DeriveTokenKey E rand_data token_secret) as [[key iv]|] eqn:Hk;
    [|easy].
  destruct (ngtcp2_crypto_encrypt E _ key _ (raw addr)) as [sealed|] eqn:Hs;
    [|easy].
  intros H. injection H as <- <-. cbv zeta. unfold token_plaintext.
  split; [rewrite !length_app, store_le_length; lia|].
  split; [exact Hw1|].
  exists rand_data, key, iv, sealed. repeat split; assumption.
Qed.

(** A token that [GenerateRetryToken] returned opens, under the same
    address and secret, to the plaintext it sealed. *)
Lemma GenerateRetryToken_opens addr ocid token_secret w token w' :
  aead_opens_sealed E -> aead_seal_length E ->
  GenerateRetryToken E addr ocid token_secret w
  = Returned (Some token, w') ->
  opens_to E token addr token_secret
    (token_plaintext addr (hrtime w) ocid).
Proof.
  intros Hopen Hlen Hgen.
  destruct (GenerateRetryToken_returned _ _ _ _ _ _ Hgen)
    as (Hfit & _ & rand_data & key & iv & sealed & Hrl & Hk & Hs & ->).
  pose proof (Hlen _ _ _ _ _ Hs) as Hsl.
  rewrite <- Hsl, firstn_all.
  assert (Hct : (length (sealed ++ rand_data) - kTokenRandLen E)%nat
                = length sealed)
    by (rewrite length_app; lia).
  unfold opens_to. cbv zeta. rewrite Hct.
  split; [rewrite length_app; lia|].
  split; [|split; [exact Hfit|exact Hsl]].
  exists key, iv. split.
  - rewrite skipn_app, skipn_all, Nat.sub_diag. simpl. exact Hk.
  - rewrite firstn_app, firstn_all, Nat.sub_diag. simpl.
    rewrite app_nil_r. now apply Hopen.
Qed.

(** The verdict on a plaintext of the generated layout, presented with
    the address it embeds: only the time check is left. *)
Lemma verdict_token_plaintext addr t cid ocid window now :
  is_uint64 t -> wf_cid cid ->
  verdict (token_plaintext addr t cid) addr ocid window now
  = if to_uint64 (t + to_uint64 (window * NGTCP2_SECONDS)) <? now
    then (true, ocid) else (false, cid).
Proof.
  intros Ht Hcid. unfold verdict, token_plaintext, SocketAddress_length.
  rewrite !length_app, store_le_length.
  unfold wf_cid, datalen, NGTCP2_MAX_CIDLEN in Hcid.
  change sizeof_uint64 with 8%nat.
  destruct (Z.ltb_spec
              (Z.of_nat (length (raw addr) + (8 + length (data cid))))
              (Z.of_nat (length (raw addr)) + 8)); [lia|].
  replace (Z.of_nat (length (raw addr) + (8 + length (data cid)))
           - Z.of_nat (length (raw addr)) - 8)
    with (Z.of_nat (length (data cid))) by lia.
  assert (Hbad : negb (Z.of_nat (length (data cid)) =? 0)
                 && ((Z.of_nat (length (data cid)) <? NGTCP2_MIN_CIDLEN)
                     || (NGTCP2_MAX_CIDLEN <? Z.of_nat (length (data cid))))
                 = false).
  { unfold NGTCP2_MIN_CIDLEN, NGTCP2_MAX_CIDLEN.
    destruct (Z.eqb_spec (Z.of_nat (length (data cid))) 0); [reflexivity|].
    destruct (Z.ltb_spec (Z.of_nat (length (data cid))) 1); [lia|].
    destruct (Z.ltb_spec 20 (Z.of_nat (length (data cid)))); [lia|].
    reflexivity. }
  rewrite Hbad. cbn [orb].
  assert (Hcmp : memcmp_differs
                   (raw addr ++ store_le 8 t ++ data cid) (raw addr)
                   (length (raw addr)) = false).
  { apply memcmp_differs_false.
    rewrite firstn_app, Nat.sub_diag, !firstn_all. simpl.
    now rewrite app_nil_r. }
  rewrite Hcmp.
  rewrite skipn_app, skipn_all, Nat.sub_diag. cbn [skipn app].
  rewrite firstn_app, store_le_length, Nat.sub_diag, firstn_store_le.
  cbn [firstn]. rewrite app_nil_r.
  change 8%nat with sizeof_uint64. rewrite (load_store_uint64 t Ht).
  match goal with |- context [?a <? now] =>
    destruct (a <? now); [reflexivity|] end.
  f_equal. unfold ngtcp2_cid_init.
  rewrite Nat2Z.id.
  rewrite app_assoc, skipn_app.
  rewrite skipn_all2 by (rewrite length_app, store_le_length; lia).
  rewrite length_app, store_le_length, Nat.sub_diag. cbn [skipn app].
  rewrite firstn_all. now destruct cid.
Qed.

End RetryToken.

(* ================================================================= *)
(** ** The small instance meets the contracts *)

Lemma Toy_tag_length (aad : bytes) : length (Toy.tag aad) = Toy.taglen.
Proof.
  unfold Toy.tag, Toy.taglen, Toy.zeros. cbn [length].
  rewrite length_firstn, length_app, repeat_length. lia.
Qed.

Lemma Toy_open_seal (p key nonce aad aad' : bytes) :
  Toy.open (p ++ Toy.tag aad) key nonce aad'
  = if bytes_eqb (Toy.tag aad) (Toy.tag aad') then Some p else None.
Proof.
  unfold Toy.open. rewrite length_app, Toy_tag_length.
  destruct (Nat.ltb_spec (length p + Toy.taglen) Toy.taglen); [lia|].
  replace (length p + Toy.taglen - Toy.taglen)%nat with (length p) by lia.
  rewrite skipn_app, skipn_all, Nat.sub_diag.
  rewrite firstn_app, firstn_all, Nat.sub_diag. cbn [skipn firstn app].
  now rewrite app_nil_r.
Qed.

Lemma Toy_opens_sealed : aead_opens_sealed Toy.externals.
Proof.
  intros p key nonce aad sealed H. cbn in H |- *. unfold Toy.seal in H.
  injection H as <-. rewrite Toy_open_seal.
  now rewrite (proj2 (bytes_eqb_eq _ _) eq_refl).
Qed.

Lemma Toy_seal_length : aead_seal_length Toy.externals.
Proof.
  intros p key nonce aad sealed H. cbn in H |- *. unfold Toy.seal in H.
  injection H as <-. now rewrite length_app, Toy_tag_length.
Qed.

Lemma Toy_open_yields_sealed : aead_open_yields_sealed Toy.externals.
Proof.
  intros p key nonce aad aad' sealed p' Hs Ho. cbn in Hs, Ho.
  unfold Toy.seal in Hs. injection Hs as <-. rewrite Toy_open_seal in Ho.
  destruct (bytes_eqb (Toy.tag aad) (Toy.tag aad')); congruence.
Qed.

Lemma Toy_reset_token_length : reset_token_length Toy.externals.
Proof.
  intros secret cid token H.
  assert (Ht : token
               = firstn NGTCP2_STATELESS_RESET_TOKENLEN
                   (data cid ++ secret
                    ++ Toy.zeros NGTCP2_STATELESS_RESET_TOKENLEN)).
  { unfold Toy.externals in H.
    cbn [ngtcp2_crypto_generate_stateless_reset_token] in H. congruence. }
  rewrite Ht, length_firstn, !length_app. unfold Toy.zeros.
  rewrite repeat_length. lia.
Qed.

Lemma valid_cid_length_wf (cid : QuicCID) :
  valid_cid_length (Z.of_nat (datalen cid)) -> wf_cid cid.
Proof.
  unfold valid_cid_length, wf_cid, NGTCP2_MAX_CIDLEN. lia.
Qed.

(* ================================================================= *)
(** ** Retry tokens: round trip *)

(** C1, as the specification states it, fails where the 64-bit deadline
    wraps: a token generated when the clock reads 2^64 - 1 is turned down
    at that very instant under a 10-second window, because
    [t + verification_expiration * NGTCP2_SECONDS] wraps to a small
    number. *)
Lemma round_trip_fails_when_deadline_wraps :
  (exists w',
     GenerateRetryToken Toy.externals Toy.loopback Toy.cid8 Toy.secret0
       (Toy.world_at (2 ^ 64 - 1))
     = Returned (Some (Toy.token_at (2 ^ 64 - 1)), w'))
  /\ InvalidRetryToken Toy.externals (Toy.token_at (2 ^ 64 - 1))
       Toy.loopback Toy.no_cid Toy.secret0 10 (Toy.world_at (2 ^ 64 - 1))
     = Returned ((true, Toy.no_cid), Toy.world_at (2 ^ 64 - 1)).
Proof.
  split; [eexists; vm_compute; reflexivity|].
  vm_compute. reflexivity.
Qed.

(** C1 (amended): for every secret, address, CID of length 0 or within
    [NGTCP2_MIN_CIDLEN, NGTCP2_MAX_CIDLEN] and generation time [t0], a
    token that [GenerateRetryToken] returned at [t0] is accepted by
    [InvalidRetryToken] under the same address and secret at every time
    [now <= t0 + window * NGTCP2_SECONDS], and [ocid] then holds exactly
    the original CID, provided the deadline [t0 + window * NGTCP2_SECONDS]
    stays below 2^64. *)
Theorem retry_token_round_trip
    (E : Externals) (addr : SocketAddress) (cid ocid : QuicCID)
    (token_secret token : bytes) (window : Z) (w0 w0' w1 : World) :
  aead_opens_sealed E -> aead_seal_length E ->
  valid_cid_length (Z.of_nat (datalen cid)) ->
  is_uint64 (hrtime w0) ->
  0 <= window ->
  hrtime w0 + window * NGTCP2_SECONDS < uint64_modulus ->
  hrtime w1 <= hrtime w0 + window * NGTCP2_SECONDS ->
  GenerateRetryToken E addr cid token_secret w0
  = Returned (Some token, w0') ->
  InvalidRetryToken E token addr ocid token_secret window w1
  = Returned ((false, cid), w1).
Proof.
  intros Hopen Hlen Hcid Ht0 Hwin Hdead Hnow Hgen.
  rewrite (InvalidRetryToken_opened E _ _ _ _ _ _ _
             (GenerateRetryToken_opens E _ _ _ _ _ _ Hopen Hlen Hgen)).
  rewrite verdict_token_plaintext
    by (try apply valid_cid_length_wf; assumption).
  unfold is_uint64, NGTCP2_SECONDS in *.
  rewrite (to_uint64_small (window * 1000000000))
    by (unfold is_uint64; lia).
  rewrite to_uint64_small by (unfold is_uint64; lia).
  destruct (Z.ltb_spec (hrtime w0 + window * 1000000000) (hrtime w1));
    [lia|reflexivity].
Qed.

Lemma retry_token_round_trip_witness :
  InvalidRetryToken Toy.externals (Toy.token_at 1000000) Toy.loopback
    Toy.no_cid Toy.secret0 10 (Toy.world_at 6000000000)
  = Returned ((false, Toy.cid8), Toy.world_at 6000000000).
Proof.
  eapply (retry_token_round_trip Toy.externals Toy.loopback Toy.cid8
           Toy.no_cid Toy.secret0 _ 10 (Toy.world_at 1000000) _
           (Toy.world_at 6000000000)).
  - exact Toy_opens_sealed.
  - exact Toy_seal_length.
  - right. vm_compute. split; discriminate.
  - vm_compute. split; [discriminate|reflexivity].
  - lia.
  - vm_compute. reflexivity.
  - vm_compute. discriminate.
  - vm_compute. reflexivity.
Defined.

(* ================================================================= *)
(** ** Retry tokens: the time check *)

(** On a token that opens to a plaintext of the generated layout, under
    the address it embeds, [InvalidRetryToken] is its time check. *)
Lemma InvalidRetryToken_time_check
    (E : Externals) (token : bytes) (addr : SocketAddress)
    (cid ocid : QuicCID) (token_secret : bytes) (window t : Z) (w : World) :
  opens_to E token addr token_secret (token_plaintext addr t cid) ->
  is_uint64 t ->
  valid_cid_length (Z.of_nat (datalen cid)) ->
  InvalidRetryToken E token addr ocid token_secret window w
  = Returned
      ((if to_uint64 (t + to_uint64 (window * NGTCP2_SECONDS)) <? hrtime w
        then (true, ocid) else (false, cid)), w).
Proof.
  intros Hopen Ht Hcid.
  rewrite (InvalidRetryToken_opened E _ _ _ _ _ _ _ Hopen).
  rewrite verdict_token_plaintext
    by (try apply valid_cid_length_wf; assumption).
  reflexivity.
Qed.

Lemma deadline_exact (t window : Z) :
  is_uint64 t -> 0 <= window ->
  t + window * NGTCP2_SECONDS < uint64_modulus ->
  to_uint64 (t + to_uint64 (window * NGTCP2_SECONDS))
  = t + window * NGTCP2_SECONDS.
Proof.
  unfold is_uint64, NGTCP2_SECONDS. intros Ht Hw Hd.
  rewrite (to_uint64_small (window * 1000000000))
    by (unfold is_uint64; lia).
  apply to_uint64_small. unfold is_uint64. lia.
Qed.

(** The small instance always returns a token for [loopback] and [cid8],
    and the token opens to what was sealed. *)
Lemma Toy_token_at_opens (t : Z) :
  opens_to Toy.externals (Toy.token_at t) Toy.loopback Toy.secret0
    (token_plaintext Toy.loopback t Toy.cid8).
Proof.
  unfold Toy.token_at.
  destruct (GenerateRetryToken Toy.externals Toy.loopback Toy.cid8
              Toy.secret0 (Toy.world_at t))
    as [[[token|] w']| |] eqn:Hgen;
    try (exfalso; revert Hgen;
         unfold GenerateRetryToken, bind, lift, uv_hrtime; cbn;
         discriminate).
  exact (GenerateRetryToken_opens Toy.externals _ _ _ _ _ _
           Toy_opens_sealed Toy_seal_length Hgen).
Qed.

Lemma Toy_bare_token_at_opens (t : Z) :
  opens_to Toy.externals (Toy.bare_token_at t) Toy.loopback Toy.secret0
    (token_plaintext Toy.loopback t Toy.no_cid).
Proof.
  unfold Toy.bare_token_at.
  destruct (GenerateRetryToken Toy.externals Toy.loopback Toy.no_cid
              Toy.secret0 (Toy.world_at t))
    as [[[token|] w']| |] eqn:Hgen;
    try (exfalso; revert Hgen;
         unfold GenerateRetryToken, bind, lift, uv_hrtime; cbn;
         discriminate).
  exact (GenerateRetryToken_opens Toy.externals _ _ _ _ _ _
           Toy_opens_sealed Toy_seal_length Hgen).
Qed.

(** C2, as the specification states it, fails: the token below carries the
    timestamp 10^18 and is presented when the clock reads 10^6, some
    thirty years earlier, and [InvalidRetryToken] accepts it. *)
Lemma future_dated_token_accepted :
  opens_to Toy.externals (Toy.token_at (10 ^ 18)) Toy.loopback Toy.secret0
    (token_plaintext Toy.loopback (10 ^ 18) Toy.cid8)
  /\ hrtime (Toy.world_at 1000000) < 10 ^ 18
  /\ InvalidRetryToken Toy.externals (Toy.token_at (10 ^ 18)) Toy.loopback
       Toy.no_cid Toy.secret0 10 (Toy.world_at 1000000)
     = Returned ((false, Toy.cid8), Toy.world_at 1000000).
Proof.
  split; [apply Toy_token_at_opens|].
  split; [reflexivity|]. vm_compute. reflexivity.
Qed.

(** C2 (amended): [InvalidRetryToken] has no check for timestamps that lie
    in the future.  On a token that opens to address, timestamp [t] and a
    CID of valid length it reports invalid exactly when
    [(t + window * NGTCP2_SECONDS) mod 2^64 < now]; so it rejects every
    token with [now - t > window * NGTCP2_SECONDS], and it accepts every
    token whose timestamp is at or ahead of [now], however far, as long as
    [t + window * NGTCP2_SECONDS] stays below 2^64. *)
Theorem retry_token_time_check
    (E : Externals) (token : bytes) (addr : SocketAddress)
    (cid ocid : QuicCID) (token_secret : bytes) (window t : Z) (w : World) :
  opens_to E token addr token_secret (token_plaintext addr t cid) ->
  is_uint64 t ->
  valid_cid_length (Z.of_nat (datalen cid)) ->
  0 <= window ->
  is_uint64 (hrtime w) ->
  let run := InvalidRetryToken E token addr ocid token_secret window w in
  (run = Returned ((true, ocid), w)
   <-> to_uint64 (t + to_uint64 (window * NGTCP2_SECONDS)) < hrtime w)
  /\ (hrtime w - t > window * NGTCP2_SECONDS ->
      run = Returned ((true, ocid), w))
  /\ (hrtime w <= t ->
      t + window * NGTCP2_SECONDS < uint64_modulus ->
      run = Returned ((false, cid), w)).
Proof.
  intros Hopen Ht Hcid Hwin Hnow run. subst run.
  rewrite (InvalidRetryToken_time_check E _ _ _ _ _ _ _ _ Hopen Ht Hcid).
  split; [|split].
  - destruct (Z.ltb_spec
                (to_uint64 (t + to_uint64 (window * NGTCP2_SECONDS)))
                (hrtime w)) as [Hlt|Hge].
    + tauto.
    + split; [discriminate|lia].
  - intros Hold.
    rewrite deadline_exact
      by (unfold is_uint64, NGTCP2_SECONDS in *; lia).
    destruct (Z.ltb_spec (t + window * NGTCP2_SECONDS) (hrtime w));
      [reflexivity|lia].
  - intros Hfuture Hdead.
    rewrite deadline_exact by assumption.
    destruct (Z.ltb_spec (t + window * NGTCP2_SECONDS) (hrtime w));
      [unfold NGTCP2_SECONDS in *; lia|reflexivity].
Qed.

Lemma retry_token_time_check_witness :
  (InvalidRetryToken Toy.externals (Toy.token_at 1000000) Toy.loopback
     Toy.no_cid Toy.secret0 10 (Toy.world_at 500)
   = Returned ((true, Toy.no_cid), Toy.world_at 500)
   <-> to_uint64 (1000000 + to_uint64 (10 * NGTCP2_SECONDS)) < 500)
  /\ (500 - 1000000 > 10 * NGTCP2_SECONDS ->
      InvalidRetryToken Toy.externals (Toy.token_at 1000000) Toy.loopback
        Toy.no_cid Toy.secret0 10 (Toy.world_at 500)
      = Returned ((true, Toy.no_cid), Toy.world_at 500))
  /\ (500 <= 1000000 ->
      1000000 + 10 * NGTCP2_SECONDS < uint64_modulus ->
      InvalidRetryToken Toy.externals (Toy.token_at 1000000) Toy.loopback
        Toy.no_cid Toy.secret0 10 (Toy.world_at 500)
      = Returned ((false, Toy.cid8), Toy.world_at 500)).
Proof.
  apply (retry_token_time_check Toy.externals (Toy.token_at 1000000)
           Toy.loopback Toy.cid8 Toy.no_cid Toy.secret0 10 1000000
           (Toy.world_at 500)).
  - apply Toy_token_at_opens.
  - vm_compute. split; [discriminate|reflexivity].
  - right. vm_compute. split; discriminate.
  - lia.
  - vm_compute. split; [discriminate|reflexivity].
Defined.

(* ================================================================= *)
(** ** Retry tokens: freshness *)

(** C5, as the specification states it, fails on its second half where
    the deadline is exactly 2^64: with a one-second window and the
    timestamp 2^64 - 10^9, the instant [t0 + window - 1] is 2^64 - 1, the
    deadline wraps to 0, and the token is turned down one nanosecond
    before it expires. *)
Lemma fresh_token_rejected_when_deadline_wraps :
  opens_to Toy.externals (Toy.token_at (2 ^ 64 - 10 ^ 9)) Toy.loopback
    Toy.secret0 (token_plaintext Toy.loopback (2 ^ 64 - 10 ^ 9) Toy.cid8)
  /\ hrtime (Toy.world_at (2 ^ 64 - 1))
     = (2 ^ 64 - 10 ^ 9) + 1 * NGTCP2_SECONDS - 1
  /\ InvalidRetryToken Toy.externals (Toy.token_at (2 ^ 64 - 10 ^ 9))
       Toy.loopback Toy.no_cid Toy.secret0 1 (Toy.world_at (2 ^ 64 - 1))
     = Returned ((true, Toy.no_cid), Toy.world_at (2 ^ 64 - 1)).
Proof.
  split; [apply Toy_token_at_opens|].
  split; [reflexivity|]. vm_compute. reflexivity.
Qed.

(** C5 (amended): a token that opens to address, timestamp [t0] and a CID
    of valid length is reported invalid when the clock reads
    [t0 + window * NGTCP2_SECONDS + 1], and is reported valid, with the
    CID handed back, when the clock reads
    [t0 + window * NGTCP2_SECONDS - 1], provided the deadline
    [t0 + window * NGTCP2_SECONDS] is below 2^64. *)
Theorem retry_token_freshness
    (E : Externals) (token : bytes) (addr : SocketAddress)
    (cid ocid : QuicCID) (token_secret : bytes) (window t0 : Z) (w : World) :
  opens_to E token addr token_secret (token_plaintext addr t0 cid) ->
  is_uint64 t0 ->
  valid_cid_length (Z.of_nat (datalen cid)) ->
  0 <= window ->
  is_uint64 (hrtime w) ->
  (hrtime w = t0 + window * NGTCP2_SECONDS + 1 ->
   InvalidRetryToken E token addr ocid token_secret window w
   = Returned ((true, ocid), w))
  /\ (hrtime w = t0 + window * NGTCP2_SECONDS - 1 ->
      t0 + window * NGTCP2_SECONDS < uint64_modulus ->
      InvalidRetryToken E token addr ocid token_secret window w
      = Returned ((false, cid), w)).
Proof.
  intros Hopen Ht Hcid Hwin Hnow.
  rewrite (InvalidRetryToken_time_check E _ _ _ _ _ _ _ _ Hopen Ht Hcid).
  split.
  - intros Hafter.
    rewrite deadline_exact by (unfold is_uint64 in *; lia).
    destruct (Z.ltb_spec (t0 + window * NGTCP2_SECONDS) (hrtime w));
      [reflexivity|lia].
  - intros Hbefore Hdead.
    rewrite deadline_exact by assumption.
    destruct (Z.ltb_spec (t0 + window * NGTCP2_SECONDS) (hrtime w));
      [lia|reflexivity].
Qed.

Lemma retry_token_freshness_witness :
  (hrtime (Toy.world_at 10001000001) = 1000000 + 10 * NGTCP2_SECONDS + 1 ->
   InvalidRetryToken Toy.externals (Toy.token_at 1000000) Toy.loopback
     Toy.no_cid Toy.secret0 10 (Toy.world_at 10001000001)
   = Returned ((true, Toy.no_cid), Toy.world_at 10001000001))
  /\ (hrtime (Toy.world_at 10001000001)
      = 1000000 + 10 * NGTCP2_SECONDS - 1 ->
      1000000 + 10 * NGTCP2_SECONDS < uint64_modulus ->
      InvalidRetryToken Toy.externals (Toy.token_at 1000000) Toy.loopback
        Toy.no_cid Toy.secret0 10 (Toy.world_at 10001000001)
      = Returned ((false, Toy.cid8), Toy.world_at 10001000001)).
Proof.
  apply (retry_token_freshness Toy.externals (Toy.token_at 1000000)
           Toy.loopback Toy.cid8 Toy.no_cid Toy.secret0 10 1000000
           (Toy.world_at 10001000001)).
  - apply Toy_token_at_opens.
  - vm_compute. split; [discriminate|reflexivity].
  - right. vm_compute. split; discriminate.
  - lia.
  - vm_compute. split; [discriminate|reflexivity].
Defined.

(* ================================================================= *)
(** ** Retry tokens: the plaintext buffer *)

Lemma token_plaintext_length addr t cid :
  length (token_plaintext addr t cid)
  = (SocketAddress_length addr + sizeof_uint64 + datalen cid)%nat.
Proof.
  unfold token_plaintext, SocketAddress_length, datalen.
  rewrite !length_app, store_le_length. lia.
Qed.

(** The three [copy_n] of [GenerateRetryToken]. *)
Lemma assemble_plaintext addr now cid :
  match copy_n (raw addr) (SocketAddress_length addr)
          plaintext_capacity [] with
  | Returned p =>
      match copy_n (store_le sizeof_uint64 now) sizeof_uint64
              plaintext_capacity p with
      | Returned p => copy_n (data cid) (datalen cid) plaintext_capacity p
      | Overrun => Overrun
      | Aborted => Aborted
      end
  | Overrun => Overrun
  | Aborted => Aborted
  end
  = if (length (token_plaintext addr now cid) <=? plaintext_capacity)%nat
    then Returned (token_plaintext addr now cid)
    else Overrun.
Proof.
  rewrite token_plaintext_length.
  unfold copy_n, SocketAddress_length, datalen, token_plaintext.
  cbn [length Nat.add app].
  destruct (Nat.leb_spec (length (raw addr)) plaintext_capacity) as [H1|H1].
  - rewrite firstn_all, firstn_store_le.
    destruct (Nat.leb_spec (length (raw addr) + sizeof_uint64)
                plaintext_capacity) as [H2|H2].
    + rewrite length_app, store_le_length, firstn_all.
      rewrite <- app_assoc. reflexivity.
    + destruct (Nat.leb_spec
                  (length (raw addr) + sizeof_uint64 + length (data cid))
                  plaintext_capacity); [lia|reflexivity].
  - destruct (Nat.leb_spec
                (length (raw addr) + sizeof_uint64 + length (data cid))
                plaintext_capacity); [lia|reflexivity].
Qed.

(** With the plaintext inside the array, [GenerateRetryToken] returns, and
    returns [false] only when the key derivation or the sealing fails. *)
Lemma GenerateRetryToken_fits (E : Externals) addr cid token_secret w :
  (length (token_plaintext addr (hrtime w) cid) <= plaintext_capacity)%nat ->
  exists rand_data w',
    EntropySource (kTokenRandLen E) w = Returned (rand_data, w')
    /\ GenerateRetryToken E addr cid token_secret w
       = Returned (seal_token E addr (token_plaintext addr (hrtime w) cid)
                     rand_data token_secret, w').
Proof.
  intros Hfit. eexists _, _. split; [reflexivity|].
  unfold GenerateRetryToken, bind, lift, uv_hrtime.
  pose proof (assemble_plaintext addr (hrtime w) cid) as Hp.
  destruct (Nat.leb_spec (length (token_plaintext addr (hrtime w) cid))
              plaintext_capacity) as [_|Hno]; [|lia].
  destruct (copy_n (raw addr) _ plaintext_capacity [])
    as [p1| |]; try discriminate.
  destruct (copy_n (store_le sizeof_uint64 (hrtime w)) _
              plaintext_capacity p1) as [p2| |]; try discriminate.
  rewrite Hp. unfold EntropySource, seal_token.
  destruct (DeriveTokenKey E _ token_secret) as [[key iv]|]; [|reflexivity].
  destruct (ngtcp2_crypto_encrypt E _ key _ (raw addr)); reflexivity.
Qed.

(** With the plaintext longer than the array, the copies run past its
    end; no check turns the input down first. *)
Lemma GenerateRetryToken_overrun (E : Externals) addr cid token_secret w :
  (plaintext_capacity < length (token_plaintext addr (hrtime w) cid))%nat ->
  GenerateRetryToken E addr cid token_secret w = Overrun.
Proof.
  intros Hbig.
  unfold GenerateRetryToken, bind, lift, uv_hrtime.
  pose proof (assemble_plaintext addr (hrtime w) cid) as Hp.
  destruct (Nat.leb_spec (length (token_plaintext addr (hrtime w) cid))
              plaintext_capacity) as [Hno|_]; [lia|].
  destruct (copy_n (raw addr) _ plaintext_capacity [])
    as [p1| |]; try discriminate; [|reflexivity].
  destruct (copy_n (store_le sizeof_uint64 (hrtime w)) _
              plaintext_capacity p1) as [p2| |]; try discriminate;
    [|reflexivity].
  now rewrite Hp.
Qed.



(* ================================================================= *)
(** ** Retry tokens: address binding *)

(** The second line of defence, whatever the AEAD did: a token that opens
    under [addrB] to a plaintext embedding another address of the same
    length is turned down by the byte comparison. *)
Lemma address_compare_rejects
    (E : Externals) (token : bytes) (addrA addrB : SocketAddress)
    (cid ocid : QuicCID) (token_secret : bytes) (window t : Z) (w : World) :
  opens_to E token addrB token_secret (token_plaintext addrA t cid) ->
  SocketAddress_length addrA = SocketAddress_length addrB ->
  raw addrB <> raw addrA ->
  InvalidRetryToken E token addrB ocid token_secret window w
  = Returned ((true, ocid), w).
Proof.
  intros Hopen Hlen Hne.
  rewrite (InvalidRetryToken_opened E _ _ _ _ _ _ _ Hopen).
  f_equal. f_equal. unfold verdict.
  destruct (Z.ltb_spec (Z.of_nat (length (token_plaintext addrA t cid)))
              (Z.of_nat (SocketAddress_length addrB) + 8));
    [reflexivity|].
  assert (Hcmp : memcmp_differs (token_plaintext addrA t cid) (raw addrB)
                   (SocketAddress_length addrB) = true).
  { apply memcmp_differs_true. unfold token_plaintext.
    rewrite <- Hlen. unfold SocketAddress_length in *.
    rewrite firstn_app, Nat.sub_diag, firstn_all. cbn [firstn].
    rewrite app_nil_r, Hlen, firstn_all. congruence. }
  rewrite Hcmp, orb_true_r. reflexivity.
Qed.

(** The byte comparison at work between any two addresses of the source's
    type: a token that opens under [addrB] to the plaintext generated for
    another address [addrA] is turned down.  With equal lengths the
    compared bytes are those of [addrA]; with different lengths the two
    families differ, and the family leads both. *)
Lemma address_compare_rejects_any
    (E : Externals) (GetLength : bytes -> nat) (token : bytes)
    (addrA addrB : SocketAddress) (cid ocid : QuicCID)
    (token_secret : bytes) (window t : Z) (w : World) :
  opens_to E token addrB token_secret (token_plaintext addrA t cid) ->
  family_specific GetLength addrA -> family_specific GetLength addrB ->
  raw addrB <> raw addrA ->
  InvalidRetryToken E token addrB ocid token_secret window w
  = Returned ((true, ocid), w).
Proof.
  intros Hopen [HA2 HAlen] [HB2 HBlen] Hne.
  destruct (Nat.eq_dec (SocketAddress_length addrA)
              (SocketAddress_length addrB)) as [Heq|Hdiff].
  { now apply (address_compare_rejects E token addrA addrB cid ocid
                 token_secret window t w). }
  rewrite (InvalidRetryToken_opened E _ _ _ _ _ _ _ Hopen).
  f_equal. f_equal. unfold verdict.
  destruct (Z.ltb_spec (Z.of_nat (length (token_plaintext addrA t cid)))
              (Z.of_nat (SocketAddress_length addrB) + 8));
    [reflexivity|].
  assert (Hcmp : memcmp_differs (token_plaintext addrA t cid) (raw addrB)
                   (SocketAddress_length addrB) = true).
  { apply memcmp_differs_true. intros Hsame.
    apply Hdiff. rewrite HAlen, HBlen. f_equal.
    apply (f_equal (firstn sizeof_sa_family)) in Hsame.
    rewrite !firstn_firstn in Hsame.
    replace (Nat.min sizeof_sa_family (SocketAddress_length addrB))
      with sizeof_sa_family in Hsame by lia.
    unfold token_plaintext, SocketAddress_length in *.
    rewrite firstn_app in Hsame.
    replace (sizeof_sa_family - length (raw addrA))%nat with 0%nat
      in Hsame by lia.
    cbn [firstn] in Hsame. now rewrite app_nil_r in Hsame. }
  rewrite Hcmp, orb_true_r. reflexivity.
Qed.

(** C4: for every secret, CID and generation time, a token that
    [GenerateRetryToken] returned for address [addrA] is reported invalid
    by [InvalidRetryToken] under any address [addrB] of the source's type
    whose bytes differ, and [ocid] is left alone.  The address is the
    associated data of the AEAD, which either refuses to open the token
    under [addrB], or opens it to the plaintext that was sealed; that
    plaintext embeds [addrA], and the byte comparison with [addrB] then
    fails. *)
Theorem retry_token_address_binding
    (E : Externals) (GetLength : bytes -> nat)
    (addrA addrB : SocketAddress) (cid ocid : QuicCID)
    (token_secret token : bytes) (window : Z) (w0 w0' w1 : World) :
  aead_open_yields_sealed E -> aead_seal_length E ->
  family_specific GetLength addrA -> family_specific GetLength addrB ->
  raw addrB <> raw addrA ->
  GenerateRetryToken E addrA cid token_secret w0
  = Returned (Some token, w0') ->
  InvalidRetryToken E token addrB ocid token_secret window w1
  = Returned ((true, ocid), w1).
Proof.
  intros Hyield Hlen HA HB Hne Hgen.
  destruct (GenerateRetryToken_returned E _ _ _ _ _ _ Hgen)
    as (Hfit & _ & rand_data & key & iv & sealed & Hrl & Hk & Hs & Htok).
  pose proof (Hlen _ _ _ _ _ Hs) as Hsl.
  rewrite <- Hsl, firstn_all in Htok.
  assert (Hct : (length token - kTokenRandLen E)%nat = length sealed)
    by (rewrite Htok, length_app; lia).
  assert (Hrand : skipn (length sealed) token = rand_data)
    by (rewrite Htok, skipn_app, skipn_all, Nat.sub_diag; reflexivity).
  assert (Hbody : firstn (length sealed) token = sealed).
  { rewrite Htok, firstn_app, firstn_all, Nat.sub_diag. cbn [firstn].
    apply app_nil_r. }
  destruct (ngtcp2_crypto_decrypt E sealed key
              (firstn (ngtcp2_crypto_packet_protection_ivlen E) iv)
              (raw addrB)) as [opened|] eqn:Hd.
  - (* the AEAD let it through: the byte comparison is left *)
    pose proof (Hyield _ _ _ _ _ _ _ Hs Hd) as ->.
    apply (address_compare_rejects_any E GetLength token addrA addrB cid
             ocid token_secret window (hrtime w0) w1); try assumption.
    unfold opens_to. cbv zeta. rewrite Hct, Hrand, Hbody.
    split; [rewrite Htok, length_app; lia|].
    split; [exists key, iv; now split|]. split; [exact Hfit|exact Hsl].
  - (* the AEAD refused *)
    unfold InvalidRetryToken.
    destruct (Nat.ltb_spec (length token) (kTokenRandLen E)) as [Hshort|_].
    { rewrite Htok, length_app in Hshort. lia. }
    rewrite Hct, Hrand, Hbody, Hk, Hd. reflexivity.
Qed.

Lemma retry_token_address_binding_witness :
  InvalidRetryToken Toy.externals (Toy.token_at 1000000) Toy.other_address
    Toy.no_cid Toy.secret0 10 (Toy.world_at 1000000)
  = Returned ((true, Toy.no_cid), Toy.world_at 1000000).
Proof.
  eapply (retry_token_address_binding Toy.externals (fun _ => 4%nat)
            Toy.loopback Toy.other_address Toy.cid8 Toy.no_cid Toy.secret0
            _ 10 (Toy.world_at 1000000) _ (Toy.world_at 1000000)).
  - exact Toy_open_yields_sealed.
  - exact Toy_seal_length.
  - split; vm_compute; [lia|reflexivity].
  - split; vm_compute; [lia|reflexivity].
  - vm_compute. discriminate.
  - vm_compute. reflexivity.
Defined.

(* ================================================================= *)
(** ** Retry tokens: the CID length *)

(** C6 fails on the code where the sealed part opens to more than the
    4096 bytes of [plaintext]: nothing bounds the token before
    [ngtcp2_crypto_decrypt] writes into the array.  [ToyLong.token] opens
    under the loopback address to 4097 bytes; the CID length derived from
    it, 4085, is neither 0 nor within the bounds, so the token is to be
    reported invalid, but the write has run past the array before any
    length is looked at. *)
Lemma oversized_token_not_rejected :
  (exists key iv,
     DeriveTokenKey Toy.externals
       (skipn (length ToyLong.token - 32) ToyLong.token) Toy.secret0
     = Some (key, iv)
     /\ ngtcp2_crypto_decrypt Toy.externals
          (firstn (length ToyLong.token - 32) ToyLong.token) key
          (firstn 12 iv) (raw Toy.loopback)
        = Some ToyLong.opened)
  /\ length ToyLong.opened = 4097%nat
  /\ ~ valid_cid_length
         (Z.of_nat (length ToyLong.opened)
          - Z.of_nat (SocketAddress_length Toy.loopback) - 8)
  /\ InvalidRetryToken Toy.externals ToyLong.token Toy.loopback Toy.no_cid
       Toy.secret0 10 (Toy.world_at 1000005)
     = Overrun.
Proof.
  split; [|split; [|split]].
  - eexists _, _. split; [vm_compute; reflexivity|].
    vm_compute. reflexivity.
  - vm_compute. reflexivity.
  - assert (Hcil : Z.of_nat (length ToyLong.opened)
                   - Z.of_nat (SocketAddress_length Toy.loopback) - 8
                   = 4085) by (vm_compute; reflexivity).
    rewrite Hcil. unfold valid_cid_length, NGTCP2_MIN_CIDLEN,
      NGTCP2_MAX_CIDLEN. lia.
  - vm_compute. reflexivity.
Qed.

(** X15: once the token has opened to a plaintext [p] that fits the
    4096-byte array and has at least [len(address) + 8] bytes, with
    [cil = len(p) - len(address) - 8]: the token is reported invalid
    exactly when [cil] is neither 0 nor within
    [NGTCP2_MIN_CIDLEN, NGTCP2_MAX_CIDLEN], or the embedded address
    differs, or the deadline has passed; with a valid [cil] and the other
    two checks passing it is reported valid and [ocid] is the trailing
    [cil] bytes; in particular [cil = 0] is accepted and yields the
    zero-length CID. *)
Theorem cid_length_acceptance
    (E : Externals) (token : bytes) (addr : SocketAddress) (ocid : QuicCID)
    (token_secret : bytes) (window : Z) (w : World) (p : bytes) :
  opens_to E token addr token_secret p ->
  Z.of_nat (SocketAddress_length addr) + 8 <= Z.of_nat (length p) ->
  let cil :=
    Z.of_nat (length p) - Z.of_nat (SocketAddress_length addr) - 8 in
  let run := InvalidRetryToken E token addr ocid token_secret window w in
  (run = Returned ((true, ocid), w)
   <-> ~ valid_cid_length cil
       \/ firstn (SocketAddress_length addr) p <> raw addr
       \/ token_deadline p addr window < hrtime w)
  /\ (valid_cid_length cil ->
      firstn (SocketAddress_length addr) p = raw addr ->
      hrtime w <= token_deadline p addr window ->
      run = Returned
              ((false,
                mkQuicCID
                  (firstn (Z.to_nat cil)
                     (skipn (SocketAddress_length addr + sizeof_uint64) p))),
               w))
  /\ (cil = 0 ->
      firstn (SocketAddress_length addr) p = raw addr ->
      hrtime w <= token_deadline p addr window ->
      run = Returned ((false, mkQuicCID []), w)).
Proof.
  intros Hopen Hlen cil run. subst run.
  rewrite (InvalidRetryToken_opened E _ _ _ _ _ _ _ Hopen).
  unfold verdict. fold cil. fold (token_deadline p addr window).
  destruct (Z.ltb_spec (Z.of_nat (length p))
              (Z.of_nat (SocketAddress_length addr) + 8)); [lia|].
  assert (Hraw : firstn (SocketAddress_length addr) (raw addr) = raw addr)
    by apply firstn_all.
  assert (Hbad : negb (cil =? 0)
                 && ((cil <? NGTCP2_MIN_CIDLEN) || (NGTCP2_MAX_CIDLEN <? cil))
                 = true <-> ~ valid_cid_length cil).
  { unfold valid_cid_length.
    destruct (Z.eqb_spec cil 0); destruct (Z.ltb_spec cil NGTCP2_MIN_CIDLEN);
      destruct (Z.ltb_spec NGTCP2_MAX_CIDLEN cil); cbn;
      split; try discriminate; try reflexivity; lia. }
  destruct (negb (cil =? 0)
            && ((cil <? NGTCP2_MIN_CIDLEN) || (NGTCP2_MAX_CIDLEN <? cil)))
    eqn:Hb.
  { pose proof (proj1 Hbad eq_refl) as Hinv. cbn [orb].
    split; [tauto|]. split; [tauto|].
    intros H0. exfalso. apply Hinv. now left. }
  assert (Hok : valid_cid_length cil).
  { apply andb_false_iff in Hb.
    rewrite negb_false_iff, orb_false_iff, Z.eqb_eq, !Z.ltb_ge in Hb.
    unfold valid_cid_length. lia. }
  cbn [orb].
  destruct (memcmp_differs p (raw addr) (SocketAddress_length addr)) eqn:Hc.
  { apply memcmp_differs_true in Hc. rewrite Hraw in Hc.
    split; [tauto|]. split; intros; contradiction. }
  apply memcmp_differs_false in Hc. rewrite Hraw in Hc.
  destruct (Z.ltb_spec (token_deadline p addr window) (hrtime w)) as [Ht|Ht].
  { split; [tauto|]. split; intros; lia. }
  split; [|split].
  - split; [discriminate|]. intros [Hn|[Hn|Hn]]; [tauto|tauto|lia].
  - reflexivity.
  - intros H0 _ _. unfold ngtcp2_cid_init. now rewrite H0.
Qed.

Lemma cid_length_acceptance_witness :
  let token := Toy.bare_token_at 1000000 in
  let p := token_plaintext Toy.loopback 1000000 Toy.no_cid in
  let w := Toy.world_at 1000005 in
  let run :=
    InvalidRetryToken Toy.externals token Toy.loopback Toy.cid8
      Toy.secret0 10 w in
  (run = Returned ((true, Toy.cid8), w)
   <-> ~ valid_cid_length (12 - 4 - 8)
       \/ firstn 4 p <> raw Toy.loopback
       \/ token_deadline p Toy.loopback 10 < hrtime w)
  /\ (valid_cid_length (12 - 4 - 8) ->
      firstn 4 p = raw Toy.loopback ->
      hrtime w <= token_deadline p Toy.loopback 10 ->
      run = Returned
              ((false,
                mkQuicCID (firstn (Z.to_nat (12 - 4 - 8))
                             (skipn (4 + sizeof_uint64) p))), w))
  /\ (12 - 4 - 8 = 0 ->
      firstn 4 p = raw Toy.loopback ->
      hrtime w <= token_deadline p Toy.loopback 10 ->
      run = Returned ((false, mkQuicCID []), w)).
Proof.
  apply (cid_length_acceptance Toy.externals (Toy.bare_token_at 1000000)
           Toy.loopback Toy.cid8 Toy.secret0 10 (Toy.world_at 1000005)
           (token_plaintext Toy.loopback 1000000 Toy.no_cid)).
  - apply Toy_bare_token_at_opens.
  - vm_compute. discriminate.
Defined.

(* ================================================================= *)
(** ** Retry tokens: one result for every failure *)

(** Whichever check fails, [InvalidRetryToken] returns [true], leaves
    [ocid] as it was and does not touch the world. *)
Lemma rejects_invalid
    (E : Externals) (token : bytes) (addr : SocketAddress) (ocid : QuicCID)
    (token_secret : bytes) (window : Z) (w : World) (r : rejection) :
  rejects E token addr token_secret window (hrtime w) r ->
  InvalidRetryToken E token addr ocid token_secret window w
  = Returned ((true, ocid), w).
Proof.
  intros Hr.
  destruct Hr as [Hshort|Hlen Hk|key iv Hlen Hk Hd|p Hopen Hp
                  |p Hopen cil Hpos Hcil|p Hopen Hp Haddr|p Hopen Hp Hexp].
  - unfold InvalidRetryToken.
    destruct (Nat.ltb_spec (length token) (kTokenRandLen E));
      [reflexivity|lia].
  - unfold InvalidRetryToken.
    destruct (Nat.ltb_spec (length token) (kTokenRandLen E));
      [reflexivity|]. now rewrite Hk.
  - unfold InvalidRetryToken.
    destruct (Nat.ltb_spec (length token) (kTokenRandLen E));
      [reflexivity|]. now rewrite Hk, Hd.
  - rewrite (InvalidRetryToken_opened E _ _ _ _ _ _ _ Hopen).
    unfold verdict.
    destruct (Z.ltb_spec (Z.of_nat (length p))
                (Z.of_nat (SocketAddress_length addr) + 8));
      [reflexivity|lia].
  - rewrite (InvalidRetryToken_opened E _ _ _ _ _ _ _ Hopen).
    unfold verdict. fold cil.
    destruct (Z.ltb_spec (Z.of_nat (length p))
                (Z.of_nat (SocketAddress_length addr) + 8));
      [reflexivity|].
    destruct (Z.eqb_spec cil 0); [lia|].
    destruct (Z.ltb_spec cil NGTCP2_MIN_CIDLEN);
      destruct (Z.ltb_spec NGTCP2_MAX_CIDLEN cil);
      try reflexivity; lia.
  - rewrite (InvalidRetryToken_opened E _ _ _ _ _ _ _ Hopen).
    unfold verdict.
    destruct (Z.ltb_spec (Z.of_nat (length p))
                (Z.of_nat (SocketAddress_length addr) + 8));
      [reflexivity|].
    assert (Hc : memcmp_differs p (raw addr) (SocketAddress_length addr)
                 = true).
    { apply memcmp_differs_true. unfold SocketAddress_length in *.
      now rewrite (firstn_all (raw addr)). }
    now rewrite Hc, orb_true_r.
  - rewrite (InvalidRetryToken_opened E _ _ _ _ _ _ _ Hopen).
    unfold verdict.
    destruct (Z.ltb_spec (Z.of_nat (length p))
                (Z.of_nat (SocketAddress_length addr) + 8));
      [reflexivity|].
    match goal with |- context [if ?c || ?d then _ else _] =>
      destruct (c || d); [reflexivity|] end.
    match goal with |- context [?a <? hrtime w] =>
      destruct (Z.ltb_spec a (hrtime w)); [reflexivity|lia] end.
Qed.

(** C7 fails on the code at the same place as C6.  A token that is too
    short gets the one result of every failure, [true] with [ocid] as it
    was; [ToyLong.token], presented long after its deadline and with a
    CID length out of bounds, fails validation on two counts and gets no
    result at all: its 4097 bytes of plaintext are written past
    [plaintext[4096]]. *)
Lemma oversized_failure_not_uniform :
  InvalidRetryToken Toy.externals [] Toy.loopback Toy.no_cid Toy.secret0
    10 (Toy.world_at (10 ^ 12))
  = Returned ((true, Toy.no_cid), Toy.world_at (10 ^ 12))
  /\ token_deadline ToyLong.opened Toy.loopback 10
     < hrtime (Toy.world_at (10 ^ 12))
  /\ InvalidRetryToken Toy.externals ToyLong.token Toy.loopback Toy.no_cid
       Toy.secret0 10 (Toy.world_at (10 ^ 12))
     <> Returned ((true, Toy.no_cid), Toy.world_at (10 ^ 12)).
Proof.
  split; [vm_compute; reflexivity|]. split; [vm_compute; reflexivity|].
  assert (Hrun : InvalidRetryToken Toy.externals ToyLong.token Toy.loopback
                   Toy.no_cid Toy.secret0 10 (Toy.world_at (10 ^ 12))
                 = Overrun) by (vm_compute; reflexivity).
  rewrite Hrun. discriminate.
Qed.

(** X16: take any two inputs on which one of the seven checks fails
    (token too short, key derivation, AEAD authentication, plaintext too
    short, CID length, address mismatch, expiry; for the last four, the
    token has opened to a plaintext that fits the 4096-byte array):
    [InvalidRetryToken] returns one and the same result on both, the
    boolean [true] with [ocid] as it was, and that result does not depend
    on the reasons [r1] and [r2]. *)
Theorem invalid_result_uniform
    (E : Externals) (ocid : QuicCID)
    (token1 token2 : bytes) (addr1 addr2 : SocketAddress)
    (secret1 secret2 : bytes) (window1 window2 : Z) (w1 w2 : World)
    (r1 r2 : rejection) :
  rejects E token1 addr1 secret1 window1 (hrtime w1) r1 ->
  rejects E token2 addr2 secret2 window2 (hrtime w2) r2 ->
  exists result,
    result = (true, ocid)
    /\ InvalidRetryToken E token1 addr1 ocid secret1 window1 w1
       = Returned (result, w1)
    /\ InvalidRetryToken E token2 addr2 ocid secret2 window2 w2
       = Returned (result, w2).
Proof.
  intros H1 H2. exists (true, ocid). split; [reflexivity|].
  split; eapply rejects_invalid; eassumption.
Qed.

Lemma invalid_result_uniform_witness :
  exists result,
    result = (true, Toy.cid8)
    /\ InvalidRetryToken Toy.externals [] Toy.loopback Toy.cid8
         Toy.secret0 10 (Toy.world_at 1000000)
       = Returned (result, Toy.world_at 1000000)
    /\ InvalidRetryToken Toy.externals (Toy.token_at 1000000) Toy.loopback
         Toy.cid8 Toy.secret0 10 (Toy.world_at 20000000000)
       = Returned (result, Toy.world_at 20000000000).
Proof.
  apply (invalid_result_uniform Toy.externals Toy.cid8
           [] (Toy.token_at 1000000) Toy.loopback Toy.loopback
           Toy.secret0 Toy.secret0 10 10
           (Toy.world_at 1000000) (Toy.world_at 20000000000)
           TokenTooShort ExpiredToken).
  - apply rejects_short. vm_compute. lia.
  - apply (rejects_expired Toy.externals _ _ _ _ _
             (token_plaintext Toy.loopback 1000000 Toy.cid8)).
    + apply Toy_token_at_opens.
    + vm_compute. discriminate.
    + vm_compute. reflexivity.
Defined.

(* ================================================================= *)
(** ** Retry tokens: the out-parameter *)

(** C10: whenever [InvalidRetryToken] returns [true], through whichever
    branch, [ocid] is what it was on entry; it is written only where the
    function returns [false], with bytes of the opened plaintext.  The
    world is never changed. *)
Theorem ocid_written_only_on_success
    (E : Externals) (token : bytes) (addr : SocketAddress) (ocid : QuicCID)
    (token_secret : bytes) (window : Z) (w : World)
    (invalid : bool) (ocid' : QuicCID) (w' : World) :
  InvalidRetryToken E token addr ocid token_secret window w
  = Returned ((invalid, ocid'), w') ->
  w' = w
  /\ (invalid = true -> ocid' = ocid)
  /\ (invalid = false ->
      exists key iv opened n,
        DeriveTokenKey E (skipn (length token - kTokenRandLen E) token)
          token_secret = Some (key, iv)
        /\ ngtcp2_crypto_decrypt E
             (firstn (length token - kTokenRandLen E) token) key
             (firstn (ngtcp2_crypto_packet_protection_ivlen E) iv)
             (raw addr) = Some opened
        /\ ocid' = ngtcp2_cid_init
                     (skipn (SocketAddress_length addr + sizeof_uint64)
                        opened) n).
Proof.
  unfold InvalidRetryToken.
  assert (Hinv : Returned ((true, ocid), w) = Returned ((invalid, ocid'), w')
                 -> w' = w /\ (invalid = true -> ocid' = ocid)
                    /\ (invalid = false ->
                        exists key iv opened n,
                          DeriveTokenKey E
                            (skipn (length token - kTokenRandLen E) token)
                            token_secret = Some (key, iv)
                          /\ ngtcp2_crypto_decrypt E
                               (firstn (length token - kTokenRandLen E)
                                  token) key
                               (firstn
                                  (ngtcp2_crypto_packet_protection_ivlen E)
                                  iv) (raw addr) = Some opened
                          /\ ocid' = ngtcp2_cid_init
                                       (skipn (SocketAddress_length addr
                                               + sizeof_uint64) opened) n)).
  { intros H. injection H as <- <- <-.
    split; [reflexivity|]. split; [reflexivity|discriminate]. }
  destruct (length token <? kTokenRandLen E)%nat; [exact Hinv|].
  destruct (DeriveTokenKey E _ token_secret) as [[key iv]|] eqn:Hk;
    [|exact Hinv].
  destruct (ngtcp2_crypto_decrypt E _ key _ (raw addr)) as [opened|] eqn:Hd;
    [|exact Hinv].
  unfold bind, lift, written_into, copy_n. cbn [length Nat.add app].
  destruct (length opened <=? plaintext_capacity)%nat; [|discriminate].
  rewrite firstn_all. cbv zeta.
  match goal with |- context [if ?c <? ?d then ret _ else _] =>
    destruct (c <? d); [exact Hinv|] end.
  match goal with |- context [if ?c || ?d then _ else _] =>
    destruct (c || d); [exact Hinv|] end.
  unfold uv_hrtime.
  match goal with |- context [?a <? hrtime w] =>
    destruct (a <? hrtime w); [exact Hinv|] end.
  unfold ret. intros H. injection H as <- <- <-.
  split; [reflexivity|]. split; [discriminate|]. intros _.
  eexists key, iv, opened, _. repeat split; assumption || reflexivity.
Qed.

Lemma ocid_written_only_on_success_witness :
  Toy.world_at 1000000 = Toy.world_at 1000000
  /\ (true = true -> Toy.cid8 = Toy.cid8)
  /\ (true = false ->
      exists key iv opened n,
        DeriveTokenKey Toy.externals
          (skipn (length (Toy.token_at 1000000) - 32)
             (Toy.token_at 1000000)) Toy.secret0 = Some (key, iv)
        /\ Toy.open
             (firstn (length (Toy.token_at 1000000) - 32)
                (Toy.token_at 1000000)) key
             (firstn 12 iv) (raw Toy.other_address) = Some opened
        /\ Toy.cid8 = ngtcp2_cid_init
                        (skipn (SocketAddress_length Toy.other_address
                                + sizeof_uint64) opened) n).
Proof.
  apply (ocid_written_only_on_success Toy.externals (Toy.token_at 1000000)
           Toy.other_address Toy.cid8 Toy.secret0 10
           (Toy.world_at 1000000) true Toy.cid8 (Toy.world_at 1000000)).
  vm_compute. reflexivity.
Defined.

(* ================================================================= *)
(** ** Stateless-reset tokens *)

(** C8: for every secret and CID, two calls of [GenerateResetToken] with
    the same inputs, in whatever worlds (clock readings, entropy), return
    the same result and leave the world as it was: the function reads
    neither the clock nor the entropy source.  A token, when one is
    returned, has 16 bytes. *)
Theorem reset_token_deterministic
    (E : Externals) (secret : bytes) (cid : QuicCID) (w1 w2 : World) :
  reset_token_length E ->
  exists result,
    GenerateResetToken E secret cid w1 = Returned (result, w1)
    /\ GenerateResetToken E secret cid w2 = Returned (result, w2)
    /\ forall token, result = Some token -> length token = 16%nat.
Proof.
  intros Hlen. eexists. split; [reflexivity|]. split; [reflexivity|].
  intros token Ht. exact (Hlen _ _ _ Ht).
Qed.

Lemma reset_token_deterministic_witness :
  exists result,
    GenerateResetToken Toy.externals Toy.secret0 Toy.cid8
      (Toy.world_at 1000000) = Returned (result, Toy.world_at 1000000)
    /\ GenerateResetToken Toy.externals Toy.secret0 Toy.cid8
         (mkWorld 77 (fun _ => xff)) = Returned (result, mkWorld 77 (fun _ => xff))
    /\ forall token, result = Some token -> length token = 16%nat.
Proof.
  apply (reset_token_deterministic Toy.externals Toy.secret0 Toy.cid8
           (Toy.world_at 1000000) (mkWorld 77 (fun _ => xff))).
  exact Toy_reset_token_length.
Defined.

(* ================================================================= *)
(** ** Flow labels *)

Lemma kLabelMask_ones : kLabelMask = Z.ones 20.
Proof. reflexivity. Qed.

Lemma masked_label_range (label : Z) :
  0 <= Z.land label kLabelMask < 2 ^ 20.
Proof.
  rewrite kLabelMask_ones, Z.land_ones by lia.
  apply Z.mod_pos_bound. reflexivity.
Qed.

(** The three [copy_n] of [GenerateFlowLabel]. *)
Lemma assemble_info local remote cid :
  (SocketAddress_length local + SocketAddress_length remote + datalen cid
   <= kInfoLen)%nat ->
  match copy_n (raw local) (SocketAddress_length local) kInfoLen [] with
  | Returned p =>
      match copy_n (raw remote) (SocketAddress_length remote) kInfoLen p with
      | Returned p => copy_n (data cid) (datalen cid) kInfoLen p
      | Overrun => Overrun
      | Aborted => Aborted
      end
  | Overrun => Overrun
  | Aborted => Aborted
  end
  = Returned (raw local ++ raw remote ++ data cid).
Proof.
  unfold SocketAddress_length, datalen. intros Hle.
  rewrite (copy_n_all (raw local) [] kInfoLen) by (cbn [length]; lia).
  cbn [app].
  rewrite (copy_n_all (raw remote) (raw local) kInfoLen) by lia.
  rewrite (copy_n_all (data cid) (raw local ++ raw remote) kInfoLen)
    by (rewrite length_app; lia).
  now rewrite <- app_assoc.
Qed.

(** A flow label that is returned is below 2^20, whatever the inputs. *)
Lemma GenerateFlowLabel_bound
    (E : Externals) (local remote : SocketAddress) (cid : QuicCID)
    (secret : bytes) (secretlen : nat) (w w' : World) (label : Z) :
  GenerateFlowLabel E local remote cid secret secretlen w
  = Returned (label, w') ->
  0 <= label < 2 ^ 20.
Proof.
  unfold GenerateFlowLabel, bind, lift, ret.
  destruct (CHECK_LE _ kInfoLen); try discriminate.
  destruct (copy_n (raw local) _ kInfoLen []); try discriminate.
  destruct (copy_n (raw remote) _ kInfoLen _); try discriminate.
  destruct (copy_n (data cid) _ kInfoLen _); try discriminate.
  intros H. injection H as <- _. apply masked_label_range.
Qed.

(** C9: for every secret, local address, remote address and CID of the
    source's types, [GenerateFlowLabel] returns a label strictly below
    2^20, and two calls with identical inputs, in whatever worlds, return
    the same label and leave the world as it was. *)
Theorem flow_label_bound_and_determinism
    (E : Externals) (local remote : SocketAddress) (cid : QuicCID)
    (secret : bytes) (secretlen : nat) (w1 w2 : World) :
  wf_address local -> wf_address remote -> wf_cid cid ->
  exists label,
    GenerateFlowLabel E local remote cid secret secretlen w1
    = Returned (label, w1)
    /\ GenerateFlowLabel E local remote cid secret secretlen w2
       = Returned (label, w2)
    /\ 0 <= label < 2 ^ 20.
Proof.
  unfold wf_address, wf_cid, sizeof_sockaddr_in6, NGTCP2_MAX_CIDLEN.
  intros Hl Hr Hc.
  assert (Hle : (SocketAddress_length local + SocketAddress_length remote
                 + datalen cid <= kInfoLen)%nat).
  { change kInfoLen with 76%nat. lia. }
  eexists. split; [|split].
  - unfold GenerateFlowLabel, bind, lift, CHECK_LE.
    destruct (Nat.leb_spec
                (SocketAddress_length local + SocketAddress_length remote
                 + datalen cid) kInfoLen); [|lia].
    pose proof (assemble_info local remote cid Hle) as Hp.
    destruct (copy_n (raw local) _ kInfoLen []) as [p1| |];
      try discriminate.
    destruct (copy_n (raw remote) _ kInfoLen p1) as [p2| |];
      try discriminate.
    rewrite Hp. reflexivity.
  - unfold GenerateFlowLabel, bind, lift, CHECK_LE.
    destruct (Nat.leb_spec
                (SocketAddress_length local + SocketAddress_length remote
                 + datalen cid) kInfoLen); [|lia].
    pose proof (assemble_info local remote cid Hle) as Hp.
    destruct (copy_n (raw local) _ kInfoLen []) as [p1| |];
      try discriminate.
    destruct (copy_n (raw remote) _ kInfoLen p1) as [p2| |];
      try discriminate.
    rewrite Hp. reflexivity.
  - apply masked_label_range.
Qed.

Lemma flow_label_bound_and_determinism_witness :
  exists label,
    GenerateFlowLabel Toy.externals Toy.loopback Toy.other_address Toy.cid8
      Toy.secret0 32 (Toy.world_at 1000000)
    = Returned (label, Toy.world_at 1000000)
    /\ GenerateFlowLabel Toy.externals Toy.loopback Toy.other_address
         Toy.cid8 Toy.secret0 32 (mkWorld 77 (fun _ => xff))
       = Returned (label, mkWorld 77 (fun _ => xff))
    /\ 0 <= label < 2 ^ 20.
Proof.
  apply (flow_label_bound_and_determinism Toy.externals Toy.loopback
           Toy.other_address Toy.cid8 Toy.secret0 32
           (Toy.world_at 1000000) (mkWorld 77 (fun _ => xff))).
  - unfold wf_address. vm_compute. lia.
  - unfold wf_address. vm_compute. lia.
  - unfold wf_cid. vm_compute. discriminate.
Defined.

(* ================================================================= *)
(** ** More on retry tokens *)

Lemma store_load_le (l : bytes) : store_le (length l) (load_le l) = l.
Proof.
  induction l as [|b l IH]; [reflexivity|].
  cbn [length store_le load_le].
  pose proof (Z_of_byte_range b) as Hb.
  assert (Hmod : (Z_of_byte b + 256 * load_le l) mod 256 = Z_of_byte b).
  { replace (Z_of_byte b + 256 * load_le l)
      with (Z_of_byte b + load_le l * 256) by lia.
    rewrite Z.mod_add by lia. now apply Z.mod_small. }
  assert (Hdiv : (Z_of_byte b + 256 * load_le l) / 256 = load_le l).
  { replace (Z_of_byte b + 256 * load_le l)
      with (Z_of_byte b + load_le l * 256) by lia.
    rewrite Z.div_add by lia. rewrite Z.div_small by lia. lia. }
  rewrite Hdiv, IH. f_equal.
  unfold byte_of_Z. rewrite Hmod. unfold Z_of_byte.
  now rewrite N2Z.id, Byte.of_to_N.
Qed.

(** Every path on which [InvalidRetryToken] returns [false]. *)
Lemma InvalidRetryToken_accepts
    (E : Externals) (token : bytes) (addr : SocketAddress)
    (ocid ocid' : QuicCID) (token_secret : bytes) (window : Z)
    (w w' : World) :
  InvalidRetryToken E token addr ocid token_secret window w
  = Returned ((false, ocid'), w') ->
  let ciphertextlen := (length token - kTokenRandLen E)%nat in
  let addrlen := Z.of_nat (SocketAddress_length addr) in
  let plaintextlen :=
    to_uint64 (Z.of_nat ciphertextlen
               - Z.of_nat (ngtcp2_crypto_aead_taglen E)) in
  let cil := to_ssize_t (plaintextlen - addrlen - 8) in
  w' = w
  /\ (kTokenRandLen E <= length token)%nat
  /\ addrlen + 8 <= plaintextlen
  /\ valid_cid_length cil
  /\ exists key iv opened,
       DeriveTokenKey E (skipn ciphertextlen token) token_secret
       = Some (key, iv)
       /\ ngtcp2_crypto_decrypt E (firstn ciphertextlen token) key
            (firstn (ngtcp2_crypto_packet_protection_ivlen E) iv)
            (raw addr) = Some opened
       /\ (length opened <= plaintext_capacity)%nat
       /\ firstn (SocketAddress_length addr) opened = raw addr
       /\ hrtime w <= token_deadline opened addr window
       /\ ocid' = ngtcp2_cid_init
                    (skipn (SocketAddress_length addr + sizeof_uint64)
                       opened) (Z.to_nat cil).
Proof.
  unfold InvalidRetryToken. cbv zeta.
  destruct (Nat.ltb_spec (length token) (kTokenRandLen E)) as [|Hlen];
    [discriminate|].
  destruct (DeriveTokenKey E _ token_secret) as [[key iv]|] eqn:Hk;
    [|discriminate].
  destruct (ngtcp2_crypto_decrypt E _ key _ (raw addr)) as [opened|] eqn:Hd;
    [|discriminate].
  unfold bind, lift, written_into, copy_n. cbn [length Nat.add app].
  destruct (Nat.leb_spec (length opened) plaintext_capacity) as [Hfit|];
    [|discriminate].
  rewrite firstn_all. change (Z.of_nat sizeof_uint64) with 8.
  match goal with |- context [if ?c <? ?d then ret _ else _] =>
    destruct (Z.ltb_spec c d) as [|Hshort]; [discriminate|] end.
  match goal with |- context [if ?c || ?d then _ else _] =>
    destruct c eqn:Hbad; [discriminate|];
    destruct d eqn:Hcmp; [discriminate|] end.
  cbn [orb]. unfold uv_hrtime.
  match goal with |- context [?a <? hrtime w] =>
    destruct (Z.ltb_spec a (hrtime w)) as [|Hfresh]; [discriminate|] end.
  unfold ret. intros H. injection H as <- <-.
  split; [reflexivity|]. split; [exact Hlen|]. split; [exact Hshort|].
  split.
  { apply andb_false_iff in Hbad.
    rewrite negb_false_iff, orb_false_iff, Z.eqb_eq, !Z.ltb_ge in Hbad.
    unfold valid_cid_length. lia. }
  exists key, iv, opened. repeat split; try assumption.
  apply memcmp_differs_false in Hcmp.
  unfold SocketAddress_length in *. now rewrite (firstn_all (raw addr)) in Hcmp.
Qed.

(** X1: a token that [GenerateRetryToken] returns has
    [len(address) + 8 + len(cid) + taglen + kTokenRandLen] bytes; its last
    [kTokenRandLen] bytes are the bytes the entropy source handed out, of
    which exactly [kTokenRandLen] were consumed; the clock is not
    changed. *)
Theorem GenerateRetryToken_token_layout
    (E : Externals) (addr : SocketAddress) (cid : QuicCID)
    (token_secret token : bytes) (w w' : World) :
  aead_seal_length E ->
  GenerateRetryToken E addr cid token_secret w
  = Returned (Some token, w') ->
  length token
  = (SocketAddress_length addr + sizeof_uint64 + datalen cid
     + ngtcp2_crypto_aead_taglen E + kTokenRandLen E)%nat
  /\ skipn (length token - kTokenRandLen E) token
     = map (entropy w) (seq 0 (kTokenRandLen E))
  /\ hrtime w' = hrtime w
  /\ forall i, entropy w' i = entropy w (kTokenRandLen E + i)%nat.
Proof.
  intros Hseal Hgen.
  destruct (Nat.le_gt_cases
              (length (token_plaintext addr (hrtime w) cid))
              plaintext_capacity) as [Hfit|Hbig].
  2:{ rewrite (GenerateRetryToken_overrun E _ _ _ _ Hbig) in Hgen.
      discriminate. }
  destruct (GenerateRetryToken_fits E addr cid token_secret w Hfit)
    as (rand_data & w1 & Hent & Hrun).
  rewrite Hrun in Hgen. injection Hgen as Htok <-.
  unfold EntropySource in Hent. injection Hent as <- <-.
  unfold seal_token in Htok.
  destruct (DeriveTokenKey E _ token_secret) as [[key iv]|];
    [|discriminate].
  destruct (ngtcp2_crypto_encrypt E _ key _ (raw addr)) as [sealed|] eqn:Hs;
    [|discriminate].
  injection Htok as <-.
  pose proof (Hseal _ _ _ _ _ Hs) as Hsl.
  rewrite <- Hsl, firstn_all, length_app, length_map, length_seq.
  rewrite token_plaintext_length in Hsl.
  split; [lia|]. split; [|split; reflexivity].
  replace (length sealed + kTokenRandLen E - kTokenRandLen E)%nat
    with (length sealed) by lia.
  now rewrite skipn_app, skipn_all, Nat.sub_diag.
Qed.

Lemma GenerateRetryToken_token_layout_witness :
  length (Toy.token_at 1000000) = (4 + 8 + 8 + 32 + 32)%nat
  /\ skipn (length (Toy.token_at 1000000) - 32) (Toy.token_at 1000000)
     = map (fun _ => x2a) (seq 0 32)
  /\ hrtime (mkWorld 1000000 (fun i => x2a)) = 1000000
  /\ forall i : nat, x2a = x2a.
Proof.
  apply (GenerateRetryToken_token_layout Toy.externals Toy.loopback
           Toy.cid8 Toy.secret0 (Toy.token_at 1000000)
           (Toy.world_at 1000000) (mkWorld 1000000 (fun i => x2a))).
  - exact Toy_seal_length.
  - vm_compute. reflexivity.
Defined.

(** X2: whatever the primitives do, a token that [InvalidRetryToken]
    accepts has [kTokenRandLen + taglen + len(address) + 8 + n] bytes with
    [0 <= n <= NGTCP2_MAX_CIDLEN], and the CID handed back has at most
    [n] bytes.  A sealed part shorter than the tag makes
    [ciphertextlen - taglen] wrap in [size_t]; the cast to [ssize_t] then
    gives a negative CID length, which is turned down.  The sizes are
    assumed below 2^62. *)
Theorem accepted_token_length
    (E : Externals) (token : bytes) (addr : SocketAddress)
    (ocid ocid' : QuicCID) (token_secret : bytes) (window : Z)
    (w w' : World) :
  Z.of_nat (length token) < 2 ^ 62 ->
  Z.of_nat (ngtcp2_crypto_aead_taglen E) < 2 ^ 62 ->
  Z.of_nat (SocketAddress_length addr) < 2 ^ 62 ->
  InvalidRetryToken E token addr ocid token_secret window w
  = Returned ((false, ocid'), w') ->
  exists n,
    0 <= n <= NGTCP2_MAX_CIDLEN
    /\ Z.of_nat (length token)
       = Z.of_nat (kTokenRandLen E)
         + Z.of_nat (ngtcp2_crypto_aead_taglen E)
         + Z.of_nat (SocketAddress_length addr) + 8 + n
    /\ Z.of_nat (datalen ocid') <= n.
Proof.
  intros Htok Htag Haddr Hrun.
  destruct (InvalidRetryToken_accepts E _ _ _ _ _ _ _ _ Hrun)
    as (_ & Hlen & Hshort & Hcil & key & iv & opened & _ & _ & _ & _ & _
        & ->).
  cbv zeta in Hshort, Hcil.
  set (c := Z.of_nat (length token - kTokenRandLen E)) in *.
  set (tag := Z.of_nat (ngtcp2_crypto_aead_taglen E)) in *.
  set (a := Z.of_nat (SocketAddress_length addr)) in *.
  assert (Hc : c = Z.of_nat (length token) - Z.of_nat (kTokenRandLen E))
    by (unfold c; lia).
  assert (Hc0 : 0 <= c < 2 ^ 62) by lia.
  assert (Htag0 : 0 <= tag) by (unfold tag; lia).
  assert (Ha0 : 0 <= a) by (unfold a; lia).
  clear Hrun.
  unfold valid_cid_length, NGTCP2_MIN_CIDLEN in Hcil.
  unfold NGTCP2_MAX_CIDLEN in *.
  destruct (Z_lt_ge_dec c tag) as [Hwrap|Hok].
  - exfalso. revert Hshort Hcil.
    unfold to_ssize_t, to_uint64, uint64_modulus.
    assert (Hp : (c - tag) mod 2 ^ 64 = c - tag + 2 ^ 64).
    { rewrite <- (Z.mod_add (c - tag) 1 (2 ^ 64)) by lia.
      apply Z.mod_small. lia. }
    rewrite Hp.
    rewrite (Z.mod_small (c - tag + 2 ^ 64 - a - 8)) by lia.
    destruct (Z.ltb_spec (c - tag + 2 ^ 64 - a - 8) (2 ^ 63)); lia.
  - assert (Hp : to_uint64 (c - tag) = c - tag).
    { apply to_uint64_small. unfold is_uint64, uint64_modulus. lia. }
    rewrite Hp in *.
    rewrite (to_ssize_t_small (c - tag - a - 8)) in * by lia.
    exists (c - tag - a - 8). split; [lia|]. split; [lia|].
    unfold ngtcp2_cid_init, datalen. cbn [data].
    rewrite length_firstn. lia.
Qed.

Lemma accepted_token_length_witness :
  exists n,
    0 <= n <= NGTCP2_MAX_CIDLEN
    /\ Z.of_nat (length (Toy.token_at 1000000))
       = Z.of_nat 32 + Z.of_nat 32
         + Z.of_nat (SocketAddress_length Toy.loopback) + 8 + n
    /\ Z.of_nat (datalen Toy.cid8) <= n.
Proof.
  apply (accepted_token_length Toy.externals (Toy.token_at 1000000)
           Toy.loopback Toy.no_cid Toy.cid8 Toy.secret0 10
           (Toy.world_at 1000005) (Toy.world_at 1000005)).
  - vm_compute. reflexivity.
  - vm_compute. reflexivity.
  - vm_compute. reflexivity.
  - vm_compute. reflexivity.
Defined.

(** The converse of [InvalidRetryToken_accepts]. *)
Lemma InvalidRetryToken_passes
    (E : Externals) (token : bytes) (addr : SocketAddress)
    (ocid : QuicCID) (token_secret : bytes) (window : Z) (w : World)
    (key iv opened : bytes) :
  let ciphertextlen := (length token - kTokenRandLen E)%nat in
  let addrlen := Z.of_nat (SocketAddress_length addr) in
  let plaintextlen :=
    to_uint64 (Z.of_nat ciphertextlen
               - Z.of_nat (ngtcp2_crypto_aead_taglen E)) in
  let cil := to_ssize_t (plaintextlen - addrlen - 8) in
  (kTokenRandLen E <= length token)%nat ->
  addrlen + 8 <= plaintextlen ->
  valid_cid_length cil ->
  DeriveTokenKey E (skipn ciphertextlen token) token_secret
  = Some (key, iv) ->
  ngtcp2_crypto_decrypt E (firstn ciphertextlen token) key
    (firstn (ngtcp2_crypto_packet_protection_ivlen E) iv) (raw addr)
  = Some opened ->
  (length opened <= plaintext_capacity)%nat ->
  firstn (SocketAddress_length addr) opened = raw addr ->
  hrtime w <= token_deadline opened addr window ->
  InvalidRetryToken E token addr ocid token_secret window w
  = Returned
      ((false,
        ngtcp2_cid_init
          (skipn (SocketAddress_length addr + sizeof_uint64) opened)
          (Z.to_nat cil)), w).
Proof.
  cbv zeta. intros Hlen Hshort Hcil Hk Hd Hfit Haddr Hfresh.
  unfold InvalidRetryToken. cbv zeta.
  destruct (Nat.ltb_spec (length token) (kTokenRandLen E)); [lia|].
  rewrite Hk, Hd. unfold bind, lift.
  rewrite (written_into_fits opened Hfit).
  change (Z.of_nat sizeof_uint64) with 8.
  match goal with |- context [if ?c <? ?d then ret _ else _] =>
    destruct (Z.ltb_spec c d); [lia|] end.
  match goal with |- context [if ?c || ?d then _ else _] =>
    assert (Hb : c = false); [|assert (Hm : d = false)] end.
  { unfold valid_cid_length in Hcil.
    apply andb_false_iff.
    rewrite negb_false_iff, orb_false_iff, Z.eqb_eq, !Z.ltb_ge. lia. }
  { apply memcmp_differs_false. unfold SocketAddress_length in *.
    now rewrite (firstn_all (raw addr)). }
  rewrite Hb, Hm. cbn [orb]. unfold uv_hrtime, ret.
  fold (token_deadline opened addr window).
  destruct (Z.ltb_spec (token_deadline opened addr window) (hrtime w));
    [lia|reflexivity].
Qed.

(** X3: with an AEAD whose opened text is the sealed text less the tag,
    [InvalidRetryToken] accepts only what [GenerateRetryToken] can have
    made for this address: the token opens to exactly the address, an
    8-byte timestamp [t] and the CID handed back, whose length is 0 or
    within the protocol's bounds, and the deadline computed from [t] has
    not passed. *)
Theorem accepted_token_structure
    (E : Externals) (token : bytes) (addr : SocketAddress)
    (ocid ocid' : QuicCID) (token_secret : bytes) (window : Z)
    (w w' : World) :
  aead_open_length E ->
  InvalidRetryToken E token addr ocid token_secret window w
  = Returned ((false, ocid'), w') ->
  exists t,
    is_uint64 t
    /\ opens_to E token addr token_secret (token_plaintext addr t ocid')
    /\ valid_cid_length (Z.of_nat (datalen ocid'))
    /\ hrtime w <= to_uint64 (t + to_uint64 (window * NGTCP2_SECONDS)).
Proof.
  intros Hol Hrun.
  destruct (InvalidRetryToken_accepts E _ _ _ _ _ _ _ _ Hrun)
    as (_ & Hlen & Hshort & Hcil & key & iv & opened & Hk & Hd & Hfit
        & Haddr & Hfresh & ->).
  cbv zeta in Hshort, Hcil.
  pose proof (Hol _ _ _ _ _ Hd) as Hct. rewrite length_firstn in Hct.
  replace (Nat.min (length token - kTokenRandLen E) (length token))
    with (length token - kTokenRandLen E)%nat in Hct by lia.
  rewrite Hct in Hshort, Hcil |- *. unfold plaintext_capacity in Hfit.
  assert (Hp : to_uint64
                 (Z.of_nat (length opened + ngtcp2_crypto_aead_taglen E)
                  - Z.of_nat (ngtcp2_crypto_aead_taglen E))
               = Z.of_nat (length opened)).
  { rewrite to_uint64_small; [lia|].
    unfold is_uint64, uint64_modulus. lia. }
  rewrite Hp in *.
  set (a := SocketAddress_length addr) in *.
  rewrite (to_ssize_t_small (Z.of_nat (length opened) - Z.of_nat a - 8))
    in * by lia.
  set (stamp := firstn sizeof_uint64 (skipn a opened)).
  assert (Hstamp : length stamp = sizeof_uint64).
  { unfold stamp, sizeof_uint64. rewrite length_firstn, length_skipn. lia. }
  assert (Hcid : firstn (Z.to_nat (Z.of_nat (length opened) - Z.of_nat a - 8))
                   (skipn (a + sizeof_uint64) opened)
                 = skipn (a + sizeof_uint64) opened).
  { apply firstn_all2. rewrite length_skipn. unfold sizeof_uint64. lia. }
  assert (Hsplit : opened
                   = token_plaintext addr (load_le stamp)
                       (ngtcp2_cid_init (skipn (a + sizeof_uint64) opened)
                          (Z.to_nat
                             (Z.of_nat (length opened) - Z.of_nat a - 8)))).
  { unfold token_plaintext, ngtcp2_cid_init. cbn [data].
    assert (Hst : store_le sizeof_uint64 (load_le stamp) = stamp)
      by (rewrite <- Hstamp at 1; apply store_load_le).
    rewrite Hcid, Hst, <- Haddr.
    unfold stamp.
    replace (a + sizeof_uint64)%nat with (sizeof_uint64 + a)%nat by lia.
    rewrite <- skipn_skipn, !firstn_skipn. reflexivity. }
  exists (load_le stamp). split; [|split; [|split]].
  - pose proof (load_le_range stamp) as Hr. rewrite Hstamp in Hr.
    exact Hr.
  - rewrite <- Hsplit. unfold opens_to. cbv zeta.
    split; [exact Hlen|]. split; [exists key, iv; now split|].
    split; [unfold plaintext_capacity; exact Hfit|exact Hct].
  - unfold ngtcp2_cid_init, datalen. cbn [data]. rewrite Hcid, length_skipn.
    replace (Z.of_nat (length opened - (a + sizeof_uint64)))
      with (Z.of_nat (length opened) - Z.of_nat a - 8)
      by (unfold sizeof_uint64; lia).
    exact Hcil.
  - exact Hfresh.
Qed.

Lemma Toy_open_length : aead_open_length Toy.externals.
Proof.
  intros sealed key nonce aad p H. cbn in H |- *. unfold Toy.open in H.
  destruct (Nat.ltb_spec (length sealed) Toy.taglen); [discriminate|].
  destruct (bytes_eqb _ _); [|discriminate].
  injection H as <-. rewrite length_firstn. lia.
Qed.

Lemma accepted_token_structure_witness :
  exists t,
    is_uint64 t
    /\ opens_to Toy.externals (Toy.token_at 1000000) Toy.loopback
         Toy.secret0 (token_plaintext Toy.loopback t Toy.cid8)
    /\ valid_cid_length (Z.of_nat (datalen Toy.cid8))
    /\ hrtime (Toy.world_at 1000005)
       <= to_uint64 (t + to_uint64 (10 * NGTCP2_SECONDS)).
Proof.
  apply (accepted_token_structure Toy.externals (Toy.token_at 1000000)
           Toy.loopback Toy.no_cid Toy.cid8 Toy.secret0 10
           (Toy.world_at 1000005) (Toy.world_at 1000005)).
  - exact Toy_open_length.
  - vm_compute. reflexivity.
Defined.

(** X4: [InvalidRetryToken] is given no bound on the token.  With an AEAD
    whose opened text is the sealed text less the tag, every token of at
    most [4096 + taglen + kTokenRandLen] bytes is answered, with the world
    unchanged; a sealed part that opens to more than 4096 bytes is written
    past the end of [plaintext]. *)
Theorem InvalidRetryToken_bounded_returns
    (E : Externals) (token : bytes) (addr : SocketAddress) (ocid : QuicCID)
    (token_secret : bytes) (window : Z) (w : World) :
  aead_open_length E ->
  ((length token
    <= plaintext_capacity + ngtcp2_crypto_aead_taglen E + kTokenRandLen E)%nat
   -> exists result,
        InvalidRetryToken E token addr ocid token_secret window w
        = Returned (result, w))
  /\ (forall key iv opened,
        (kTokenRandLen E <= length token)%nat ->
        DeriveTokenKey E (skipn (length token - kTokenRandLen E) token)
          token_secret = Some (key, iv) ->
        ngtcp2_crypto_decrypt E
          (firstn (length token - kTokenRandLen E) token) key
          (firstn (ngtcp2_crypto_packet_protection_ivlen E) iv) (raw addr)
        = Some opened ->
        (plaintext_capacity < length opened)%nat ->
        InvalidRetryToken E token addr ocid token_secret window w
        = Overrun).
Proof.
  intros Hol. split.
  - intros Hbound. unfold InvalidRetryToken.
    destruct (Nat.ltb_spec (length token) (kTokenRandLen E));
      [eexists; reflexivity|].
    destruct (DeriveTokenKey E _ token_secret) as [[key iv]|];
      [|eexists; reflexivity].
    destruct (ngtcp2_crypto_decrypt E _ key _ (raw addr)) as [opened|]
      eqn:Hd; [|eexists; reflexivity].
    pose proof (Hol _ _ _ _ _ Hd) as Hct. rewrite length_firstn in Hct.
    unfold bind, lift.
    rewrite (written_into_fits opened) by lia. cbv zeta.
    match goal with |- context [if ?c <? ?d then ret _ else _] =>
      destruct (c <? d); [eexists; reflexivity|] end.
    match goal with |- context [if ?c || ?d then _ else _] =>
      destruct (c || d); [eexists; reflexivity|] end.
    unfold uv_hrtime.
    match goal with |- context [?a <? hrtime w] =>
      destruct (a <? hrtime w); eexists; reflexivity end.
  - intros key iv opened Hlen Hk Hd Hbig. unfold InvalidRetryToken.
    destruct (Nat.ltb_spec (length token) (kTokenRandLen E)); [lia|].
    rewrite Hk, Hd. unfold bind, lift, written_into.
    rewrite copy_n_overrun by (cbn [length]; lia). reflexivity.
Qed.

Lemma InvalidRetryToken_bounded_returns_witness :
  ((length (Toy.token_at 1000000) <= plaintext_capacity + 32 + 32)%nat ->
   exists result,
     InvalidRetryToken Toy.externals (Toy.token_at 1000000) Toy.loopback
       Toy.no_cid Toy.secret0 10 (Toy.world_at 1000005)
     = Returned (result, Toy.world_at 1000005))
  /\ (forall key iv opened,
        (32 <= length (Toy.token_at 1000000))%nat ->
        DeriveTokenKey Toy.externals
          (skipn (length (Toy.token_at 1000000) - 32)
             (Toy.token_at 1000000)) Toy.secret0 = Some (key, iv) ->
        Toy.open
          (firstn (length (Toy.token_at 1000000) - 32)
             (Toy.token_at 1000000)) key (firstn 12 iv) (raw Toy.loopback)
        = Some opened ->
        (plaintext_capacity < length opened)%nat ->
        InvalidRetryToken Toy.externals (Toy.token_at 1000000) Toy.loopback
          Toy.no_cid Toy.secret0 10 (Toy.world_at 1000005)
        = Overrun).
Proof.
  apply (InvalidRetryToken_bounded_returns Toy.externals
           (Toy.token_at 1000000) Toy.loopback Toy.no_cid Toy.secret0 10
           (Toy.world_at 1000005)).
  exact Toy_open_length.
Defined.

(** X5: the clock only ever turns a token down.  A token accepted when
    the clock reads [now2] is accepted, with the same CID, at every
    earlier reading [now1 <= now2]: there is no lower bound on a token's
    age, and a token reported invalid stays invalid from then on. *)
Theorem acceptance_monotone
    (E : Externals) (token : bytes) (addr : SocketAddress)
    (ocid ocid' : QuicCID) (token_secret : bytes) (window : Z)
    (w1 w2 : World) :
  hrtime w1 <= hrtime w2 ->
  InvalidRetryToken E token addr ocid token_secret window w2
  = Returned ((false, ocid'), w2) ->
  InvalidRetryToken E token addr ocid token_secret window w1
  = Returned ((false, ocid'), w1).
Proof.
  intros Hle Hrun.
  destruct (InvalidRetryToken_accepts E _ _ _ _ _ _ _ _ Hrun)
    as (_ & Hlen & Hshort & Hcil & key & iv & opened & Hk & Hd & Hfit
        & Haddr & Hfresh & ->).
  apply (InvalidRetryToken_passes E token addr ocid token_secret window w1
           key iv opened); try assumption. lia.
Qed.

Lemma acceptance_monotone_witness :
  InvalidRetryToken Toy.externals (Toy.token_at 1000000) Toy.loopback
    Toy.no_cid Toy.secret0 10 (Toy.world_at 7)
  = Returned ((false, Toy.cid8), Toy.world_at 7).
Proof.
  apply (acceptance_monotone Toy.externals (Toy.token_at 1000000)
           Toy.loopback Toy.no_cid Toy.cid8 Toy.secret0 10
           (Toy.world_at 7) (Toy.world_at 1000005)).
  - vm_compute. discriminate.
  - vm_compute. reflexivity.
Defined.

(* ================================================================= *)
(** ** Retry packets *)

Lemma written_into_fits_any (capacity : nat) (out : bytes) :
  (length out <= capacity)%nat -> written_into capacity out = Returned out.
Proof.
  intros H. unfold written_into. now rewrite copy_n_all.
Qed.

(** [GenerateRetryPacket] once the token is there and the two arrays are
    large enough. *)
Lemma GenerateRetryPacket_steps
    (E : Externals) (P : PacketWriter) (token_secret : bytes)
    (dcid scid : QuicCID) (local_addr remote_addr : SocketAddress)
    (w w1 : World) (token : bytes) :
  GenerateRetryToken E remote_addr dcid token_secret w
  = Returned (Some token, w1) ->
  (length token <= retry_token_capacity)%nat ->
  Z.of_nat (kScidLen P) <= NGTCP2_MAX_CIDLEN ->
  let cid := mkQuicCID (map (entropy w1) (seq 0 (kScidLen P))) in
  let w2 := mkWorld (hrtime w1) (fun i => entropy w1 (kScidLen P + i)%nat) in
  let written :=
    ngtcp2_crypto_write_retry P NGTCP2_MAX_PKTLEN_IPV4 scid cid dcid token in
  GenerateRetryPacket E P token_secret dcid scid local_addr remote_addr w
  = Returned
      ((if fst written <=? 0 then None
        else Some (mkQuicPacket (snd written) (fst written))), w2).
Proof.
  intros Hgen Hfit Hscid. cbv zeta.
  unfold GenerateRetryPacket, bind. rewrite Hgen.
  unfold lift. unfold written_into at 1.
  rewrite copy_n_all by (cbn [length]; exact Hfit). cbn [app].
  unfold EntropySource.
  rewrite written_into_fits_any.
  2:{ rewrite length_map, length_seq. unfold NGTCP2_MAX_CIDLEN in *. lia. }
  assert (Hcid : firstn (kScidLen P) (map (entropy w1) (seq 0 (kScidLen P)))
                 = map (entropy w1) (seq 0 (kScidLen P))).
  { apply firstn_all2. now rewrite length_map, length_seq. }
  rewrite Hcid.
  destruct (ngtcp2_crypto_write_retry P NGTCP2_MAX_PKTLEN_IPV4 scid _ dcid
              token) as [nwrite written].
  cbn [fst snd]. destruct (nwrite <=? 0); reflexivity.
Qed.

Lemma seal_token_length
    (E : Externals) (addr : SocketAddress) (p rand_data token_secret token
     : bytes) :
  seal_token E addr p rand_data token_secret = Some token ->
  (length token
   <= length p + ngtcp2_crypto_aead_taglen E + length rand_data)%nat.
Proof.
  unfold seal_token.
  destruct (DeriveTokenKey E rand_data token_secret) as [[key iv]|];
    [|discriminate].
  destruct (ngtcp2_crypto_encrypt E p key _ (raw addr)) as [sealed|];
    [|discriminate].
  intros H. injection H as <-. rewrite length_app, length_firstn. lia.
Qed.

(** X6: the two arrays of [GenerateRetryPacket] are large enough.  For a
    remote address and a CID of the source's types, a tag and random
    block of at most 200 bytes together and [kScidLen] at most
    [NGTCP2_MAX_CIDLEN], neither [token[256]] nor the fresh CID is written
    past its end: the function returns, and a packet it returns has the
    positive length the writer reported. *)
Theorem GenerateRetryPacket_returns
    (E : Externals) (P : PacketWriter) (token_secret : bytes)
    (dcid scid : QuicCID) (local_addr remote_addr : SocketAddress)
    (w : World) :
  wf_address remote_addr -> wf_cid dcid ->
  (ngtcp2_crypto_aead_taglen E + kTokenRandLen E <= 200)%nat ->
  Z.of_nat (kScidLen P) <= NGTCP2_MAX_CIDLEN ->
  exists result w',
    GenerateRetryPacket E P token_secret dcid scid local_addr remote_addr w
    = Returned (result, w')
    /\ forall packet, result = Some packet -> 0 < packet_length packet.
Proof.
  intros Haddr Hcid Hsizes Hscid.
  assert (Hlen : (length (token_plaintext remote_addr (hrtime w) dcid)
                  <= 56)%nat).
  { rewrite token_plaintext_length.
    unfold wf_address, wf_cid, sizeof_sockaddr_in6, NGTCP2_MAX_CIDLEN,
      sizeof_uint64 in *. lia. }
  destruct (GenerateRetryToken_fits E remote_addr dcid token_secret w)
    as (rand_data & w1 & Hent & Hgen);
    [unfold plaintext_capacity; lia|].
  assert (Hrl : length rand_data = kTokenRandLen E).
  { unfold EntropySource in Hent. injection Hent as <- _.
    now rewrite length_map, length_seq. }
  destruct (seal_token E remote_addr _ rand_data token_secret)
    as [token|] eqn:Hseal.
  - pose proof (seal_token_length E _ _ _ _ _ Hseal) as Htl.
    eexists _, _. split.
    + apply (GenerateRetryPacket_steps E P _ _ _ _ _ _ _ _ Hgen);
        [unfold retry_token_capacity; lia|exact Hscid].
    + intros packet.
      destruct (Z.leb_spec
                  (fst (ngtcp2_crypto_write_retry P NGTCP2_MAX_PKTLEN_IPV4
                          scid
                          (mkQuicCID
                             (map (entropy w1) (seq 0 (kScidLen P))))
                          dcid token)) 0) as [|Hpos]; [discriminate|].
      intros Hsome. injection Hsome as <-. cbn [packet_length]. lia.
  - exists None, w1. split; [|discriminate].
    unfold GenerateRetryPacket, bind. now rewrite Hgen.
Qed.

Lemma GenerateRetryPacket_returns_witness :
  exists result w',
    GenerateRetryPacket Toy.externals ToyPacket.writer Toy.secret0 Toy.cid8
      Toy.no_cid Toy.other_address Toy.loopback (Toy.world_at 1000000)
    = Returned (result, w')
    /\ forall packet, result = Some packet -> 0 < packet_length packet.
Proof.
  apply (GenerateRetryPacket_returns Toy.externals ToyPacket.writer
           Toy.secret0 Toy.cid8 Toy.no_cid Toy.other_address Toy.loopback
           (Toy.world_at 1000000)).
  - unfold wf_address. vm_compute. lia.
  - unfold wf_cid. vm_compute. discriminate.
  - vm_compute. lia.
  - vm_compute. discriminate.
Defined.

(** X7: the token inside a retry packet comes back as the original
    destination CID.  When [GenerateRetryPacket] returns a packet, the
    writer was given the source CID, a fresh CID of [kScidLen] bytes from
    the entropy source, the destination CID and a token; that token,
    presented from the same remote address before the deadline
    [t0 + window * NGTCP2_SECONDS] (which must stay below 2^64), is
    accepted by [InvalidRetryToken] and yields [dcid]. *)
Theorem retry_packet_token_round_trip
    (E : Externals) (P : PacketWriter) (token_secret : bytes)
    (dcid scid : QuicCID) (local_addr remote_addr : SocketAddress)
    (window : Z) (w0 w0' : World) (packet : QuicPacket) :
  aead_opens_sealed E -> aead_seal_length E ->
  valid_cid_length (Z.of_nat (datalen dcid)) ->
  is_uint64 (hrtime w0) ->
  0 <= window ->
  hrtime w0 + window * NGTCP2_SECONDS < uint64_modulus ->
  GenerateRetryPacket E P token_secret dcid scid local_addr remote_addr w0
  = Returned (Some packet, w0') ->
  exists token cid,
    ngtcp2_crypto_write_retry P NGTCP2_MAX_PKTLEN_IPV4 scid cid dcid token
    = (packet_length packet, packet_data packet)
    /\ (datalen cid <= kScidLen P)%nat
    /\ forall ocid w1,
         hrtime w1 <= hrtime w0 + window * NGTCP2_SECONDS ->
         InvalidRetryToken E token remote_addr ocid token_secret window w1
         = Returned ((false, dcid), w1).
Proof.
  intros Hopen Hseal Hcid Ht0 Hwin Hdead Hrun.
  unfold GenerateRetryPacket, bind in Hrun.
  destruct (GenerateRetryToken E remote_addr dcid token_secret w0)
    as [[[token|] w1]| |] eqn:Hgen; try discriminate.
  unfold lift, written_into, copy_n in Hrun. cbn [length Nat.add app] in Hrun.
  destruct (length token <=? retry_token_capacity)%nat; [|discriminate].
  rewrite firstn_all in Hrun. unfold EntropySource in Hrun.
  match type of Hrun with context [if ?c then Returned (firstn ?n ?l) else _]
    => destruct c; [|discriminate] end.
  match type of Hrun with
    context [ngtcp2_crypto_write_retry P ?d ?s ?c ?o ?t] =>
    destruct (ngtcp2_crypto_write_retry P d s c o t) as [nwrite written]
      eqn:Hw; exists t, c
  end.
  destruct (nwrite <=? 0); [discriminate|].
  injection Hrun as <- _. cbn [packet_length packet_data].
  split; [exact Hw|]. split.
  { unfold datalen. cbn [data]. rewrite length_firstn. lia. }
  intros ocid w2 Hnow.
  rewrite (InvalidRetryToken_time_check E _ _ _ ocid _ window _ w2
             (GenerateRetryToken_opens E _ _ _ _ _ _ Hopen Hseal Hgen)
             Ht0 Hcid).
  rewrite deadline_exact by assumption.
  destruct (Z.ltb_spec (hrtime w0 + window * NGTCP2_SECONDS) (hrtime w2));
    [lia|reflexivity].
Qed.

Lemma retry_packet_token_round_trip_witness :
  exists token cid,
    ngtcp2_crypto_write_retry ToyPacket.writer NGTCP2_MAX_PKTLEN_IPV4
      Toy.no_cid cid Toy.cid8 token
    = (104, repeat x2a 20 ++ Toy.token_at 1000000)
    /\ (datalen cid <= 20)%nat
    /\ forall ocid w1,
         hrtime w1 <= hrtime (Toy.world_at 1000000) + 10 * NGTCP2_SECONDS ->
         InvalidRetryToken Toy.externals token Toy.loopback ocid Toy.secret0
           10 w1
         = Returned ((false, Toy.cid8), w1).
Proof.
  eapply (retry_packet_token_round_trip Toy.externals ToyPacket.writer
            Toy.secret0 Toy.cid8 Toy.no_cid Toy.other_address Toy.loopback
            10 (Toy.world_at 1000000) _
            (mkQuicPacket (repeat x2a 20 ++ Toy.token_at 1000000) 104)).
  - exact Toy_opens_sealed.
  - exact Toy_seal_length.
  - right. vm_compute. split; discriminate.
  - vm_compute. split; [discriminate|reflexivity].
  - lia.
  - vm_compute. reflexivity.
  - vm_compute. reflexivity.
Defined.

(* ================================================================= *)
(** ** More on flow labels and reset tokens *)

(** X8: [CHECK_LE] guards the info array of [GenerateFlowLabel].  Whatever
    the inputs, the function never writes past the array: when the two
    addresses and the CID have more than [kInfoLen] bytes together it
    aborts before any copy, and otherwise it returns a label below 2^20
    and leaves the world as it was. *)
Theorem GenerateFlowLabel_guarded
    (E : Externals) (local remote : SocketAddress) (cid : QuicCID)
    (secret : bytes) (secretlen : nat) (w : World) :
  let infolen :=
    (SocketAddress_length local + SocketAddress_length remote
     + datalen cid)%nat in
  ((infolen <= kInfoLen)%nat ->
   exists label,
     GenerateFlowLabel E local remote cid secret secretlen w
     = Returned (label, w)
     /\ 0 <= label < 2 ^ 20)
  /\ ((kInfoLen < infolen)%nat ->
      GenerateFlowLabel E local remote cid secret secretlen w = Aborted).
Proof.
  cbv zeta. split.
  - intros Hle. eexists. split; [|apply masked_label_range].
    unfold GenerateFlowLabel, bind, lift, CHECK_LE.
    destruct (Nat.leb_spec
                (SocketAddress_length local + SocketAddress_length remote
                 + datalen cid) kInfoLen); [|lia].
    pose proof (assemble_info local remote cid Hle) as Hp.
    destruct (copy_n (raw local) _ kInfoLen []) as [p1| |];
      try discriminate.
    destruct (copy_n (raw remote) _ kInfoLen p1) as [p2| |];
      try discriminate.
    rewrite Hp. reflexivity.
  - intros Hbig. unfold GenerateFlowLabel, bind, lift, CHECK_LE.
    destruct (Nat.leb_spec
                (SocketAddress_length local + SocketAddress_length remote
                 + datalen cid) kInfoLen); [lia|reflexivity].
Qed.

(** X9: [GenerateResetToken] passes [NGTCP2_STATELESS_RESET_TOKENLEN] as
    the length of the secret, so only the first 16 bytes of the secret
    enter the token: two secrets that agree on them give the same
    result. *)
Theorem reset_token_secret_prefix
    (E : Externals) (secret1 secret2 : bytes) (cid : QuicCID) (w : World) :
  firstn NGTCP2_STATELESS_RESET_TOKENLEN secret1
  = firstn NGTCP2_STATELESS_RESET_TOKENLEN secret2 ->
  GenerateResetToken E secret1 cid w = GenerateResetToken E secret2 cid w.
Proof.
  intros Hprefix. unfold GenerateResetToken. now rewrite Hprefix.
Qed.

Lemma reset_token_secret_prefix_witness :
  GenerateResetToken Toy.externals (Toy.zeros 16 ++ [x01; x02]) Toy.cid8
    (Toy.world_at 5)
  = GenerateResetToken Toy.externals (Toy.zeros 16 ++ [xff]) Toy.cid8
      (Toy.world_at 5).
Proof.
  apply (reset_token_secret_prefix Toy.externals
           (Toy.zeros 16 ++ [x01; x02]) (Toy.zeros 16 ++ [xff]) Toy.cid8
           (Toy.world_at 5)).
  vm_compute. reflexivity.
Defined.

(* ================================================================= *)
(** ** Session tickets *)

Section SessionTicketFacts.

Variable SSL_SESSION : Type.
Variable set1 : SSL_SESSION -> bytes -> SSL_SESSION.

Lemma Set_each_already_set (a : SessionTicketAppData SSL_SESSION)
    (datas : list bytes) :
  set_ SSL_SESSION a = true ->
  Set_each SSL_SESSION set1 a datas = (repeat false (length datas), a).
Proof.
  intros Hset. induction datas as [|d rest IH]; [reflexivity|].
  cbn [Set_each]. unfold SessionTicketAppData_Set. rewrite Hset, IH.
  reflexivity.
Qed.

End SessionTicketFacts.

(** X10: the application data of a session ticket is written once.  Of
    any sequence of calls to [SessionTicketAppData::Set] on a fresh
    object only the first returns [true] and reaches
    [SSL_SESSION_set1_ticket_appdata]; every later call returns [false]
    and leaves the session as the first call made it. *)
Theorem Set_write_once
    (SSL_SESSION : Type) (set1 : SSL_SESSION -> bytes -> SSL_SESSION)
    (a : SessionTicketAppData SSL_SESSION) (d : bytes) (rest : list bytes) :
  set_ SSL_SESSION a = false ->
  Set_each SSL_SESSION set1 a (d :: rest)
  = (true :: repeat false (length rest),
     mkSessionTicketAppData SSL_SESSION true
       (set1 (session_ SSL_SESSION a) d)).
Proof.
  intros Hfresh. cbn [Set_each]. unfold SessionTicketAppData_Set.
  rewrite Hfresh, firstn_all. cbn [set_].
  rewrite Set_each_already_set by reflexivity. reflexivity.
Qed.

Lemma Set_write_once_witness :
  Set_each (list bytes) (fun s d => d :: s)
    (mkSessionTicketAppData (list bytes) false [])
    [[x01]; [x02; x03]; []]
  = ([true; false; false],
     mkSessionTicketAppData (list bytes) true [[x01]]).
Proof.
  apply (Set_write_once (list bytes) (fun s d => d :: s)
           (mkSessionTicketAppData (list bytes) false [])
           [x01] [[x02; x03]; []]).
  reflexivity.
Defined.

(** X11: a ticket that did not decrypt is never used.
    [DecryptSessionTicket] never returns [SSL_TICKET_RETURN_ABORT]; it
    returns [USE] or [USE_RENEW] only for the statuses [SUCCESS] and
    [SUCCESS_RENEW], and then because the session answered so; the
    session is asked exactly for those two statuses, with [STATUS_RENEW]
    just for [SUCCESS_RENEW]; an empty or undecryptable ticket gives
    [IGNORE_RENEW]. *)
Theorem DecryptSessionTicket_use_only_on_success
    (GetSessionTicketAppData : Flag -> Status) (status : SSL_TICKET_STATUS) :
  let result := fst (DecryptSessionTicket GetSessionTicketAppData status) in
  let asked := snd (DecryptSessionTicket GetSessionTicketAppData status) in
  result <> SSL_TICKET_RETURN_ABORT
  /\ (result = SSL_TICKET_RETURN_USE \/ result = SSL_TICKET_RETURN_USE_RENEW
      -> exists flag,
           asked = [flag]
           /\ (flag = STATUS_RENEW <-> status = SSL_TICKET_SUCCESS_RENEW)
           /\ (flag = STATUS_NONE <-> status = SSL_TICKET_SUCCESS)
           /\ (result = SSL_TICKET_RETURN_USE
               <-> GetSessionTicketAppData flag = TICKET_USE)
           /\ (result = SSL_TICKET_RETURN_USE_RENEW
               <-> GetSessionTicketAppData flag = TICKET_USE_RENEW))
  /\ (asked = []
      <-> status <> SSL_TICKET_SUCCESS
          /\ status <> SSL_TICKET_SUCCESS_RENEW)
  /\ (status = SSL_TICKET_EMPTY \/ status = SSL_TICKET_NO_DECRYPT
      -> result = SSL_TICKET_RETURN_IGNORE_RENEW).
Proof.
  cbv zeta. unfold DecryptSessionTicket.
  destruct status; cbn [fst snd];
    try (destruct (GetSessionTicketAppData STATUS_NONE) eqn:Hn);
    try (destruct (GetSessionTicketAppData STATUS_RENEW) eqn:Hr);
    (split; [discriminate|]);
    (split;
     [intros [H|H]; try discriminate H;
      eexists; (split; [reflexivity|]);
      repeat split; intros; congruence
     |]);
    (split; [split; [intros H; try discriminate H; split; discriminate
                    |intros [H1 H2]; congruence]
            |intros [H|H]; try discriminate H; reflexivity]).
Qed.

(* ================================================================= *)
(** ** Setting up the TLS object *)

Ltac tls_cases session :=
  unfold InitializeTLS, SetHostname, SetTransportParams, CHECK_EQ;
  cbv zeta;
  destruct session as [sd al host ocsp cert reject];
  cbn [side alpn hostname warn_trace_tls
       QUICCLIENTSESSION_OPTION_REQUEST_OCSP
       QUICSERVERSESSION_OPTION_REQUEST_CERT
       QUICSERVERSESSION_OPTION_REJECT_UNAUTHORIZED];
  repeat match goal with
         | |- context [if ?b then _ else _] =>
             lazymatch b with
             | context [if _ then _ else _] => fail
             | _ => destruct b eqn:?
             end
         | |- context [match ?s with
                       | NGTCP2_CRYPTO_SIDE_CLIENT => _
                       | NGTCP2_CRYPTO_SIDE_SERVER => _
                       end] => destruct s
         end.

(** X12: the certificate-verification mode [InitializeTLS] leaves on the
    TLS object.  A client is always left with [SSL_VERIFY_NONE].  A
    server is left with [SSL_VERIFY_NONE] unless it requests a
    certificate; the reject-unauthorized option adds
    [SSL_VERIFY_FAIL_IF_NO_PEER_CERT] only together with
    [SSL_VERIFY_PEER], and has no effect on its own. *)
Theorem InitializeTLS_verify_mode
    (T : TlsEngine) (trace_tls : bool) (session : QuicSession)
    (quic_state quic_state' : QuicState) (calls : list tls_call) :
  InitializeTLS T trace_tls session quic_state
  = Returned (calls, quic_state') ->
  final_verify_mode calls
  = Some
      (match side session with
       | NGTCP2_CRYPTO_SIDE_CLIENT => SSL_VERIFY_NONE
       | NGTCP2_CRYPTO_SIDE_SERVER =>
           if QUICSERVERSESSION_OPTION_REQUEST_CERT session
           then
             if QUICSERVERSESSION_OPTION_REJECT_UNAUTHORIZED session
             then 3 else SSL_VERIFY_PEER
           else SSL_VERIFY_NONE
       end).
Proof.
  destruct quic_state as [warn].
  tls_cases session;
    intros H; try discriminate H; injection H as <- _; reflexivity.
Qed.

Lemma InitializeTLS_verify_mode_witness :
  final_verify_mode
    [Call_SSL_set_app_data; Call_SSL_set_cert_cb;
     Call_SSL_set_verify SSL_VERIFY_NONE; Call_SSL_set_accept_state;
     Call_SSL_set_verify 3; Call_ngtcp2_conn_set_tls_native_handle;
     Call_ngtcp2_encode_transport_params 512;
     Call_SSL_set_quic_transport_params 64]
  = Some 3.
Proof.
  apply (InitializeTLS_verify_mode ToyTls.engine false ToyTls.server
           (mkQuicState true) (mkQuicState true)).
  vm_compute. reflexivity.
Defined.

(** One call of [InitializeTLS]: it warns when tracing is on and the
    state still asks for the warning, and then the state no longer does. *)
Lemma InitializeTLS_warning
    (T : TlsEngine) (trace_tls : bool) (session : QuicSession)
    (quic_state quic_state' : QuicState) (calls : list tls_call) :
  InitializeTLS T trace_tls session quic_state
  = Returned (calls, quic_state') ->
  length (filter is_warning calls)
  = (if trace_tls && warn_trace_tls quic_state then 1 else 0)%nat
  /\ warn_trace_tls quic_state'
     = warn_trace_tls quic_state && negb trace_tls.
Proof.
  destruct trace_tls, quic_state as [[|]];
    cbn [andb negb warn_trace_tls];
    tls_cases session;
    intros H; try discriminate H; injection H as <- <-;
    split; reflexivity.
Qed.

(** X13: the warning about [--trace-tls] is emitted once per
    [QuicState].  Over any sequence of sessions set up under one state,
    [ProcessEmitWarning] is called exactly once if tracing is on, the
    state asked for the warning and there is at least one session, and
    never otherwise; afterwards the state asks for it only if it did
    before and nothing was traced. *)
Theorem trace_warning_once
    (T : TlsEngine) (trace_tls : bool) (sessions : list QuicSession)
    (quic_state quic_state' : QuicState) (calls : list tls_call) :
  InitializeTLS_each T trace_tls sessions quic_state
  = Returned (calls, quic_state') ->
  length (filter is_warning calls)
  = (if trace_tls && warn_trace_tls quic_state
        && negb (Nat.eqb (length sessions) 0)
     then 1 else 0)%nat
  /\ warn_trace_tls quic_state'
     = warn_trace_tls quic_state
       && negb (trace_tls && negb (Nat.eqb (length sessions) 0)).
Proof.
  revert quic_state calls.
  induction sessions as [|session rest IH]; intros quic_state calls Hrun.
  - cbn in Hrun. injection Hrun as <- <-. cbn.
    destruct trace_tls, (warn_trace_tls quic_state); split; reflexivity.
  - cbn [InitializeTLS_each] in Hrun.
    destruct (InitializeTLS T trace_tls session quic_state)
      as [[calls1 state1]| |] eqn:H1; try discriminate.
    destruct (InitializeTLS_each T trace_tls rest state1)
      as [[calls2 state2]| |] eqn:H2; try discriminate.
    injection Hrun as <- <-.
    destruct (InitializeTLS_warning T _ _ _ _ _ H1) as [Hc1 Hs1].
    destruct (IH _ _ H2) as [Hc2 Hs2].
    rewrite filter_app, length_app, Hc1, Hc2, Hs2, Hs1.
    cbn [length Nat.eqb negb]. rewrite !andb_true_r.
    destruct trace_tls, (warn_trace_tls quic_state),
      (Nat.eqb (length rest) 0); split; reflexivity.
Qed.

Lemma trace_warning_once_witness :
  length
    (filter is_warning
       (match InitializeTLS_each ToyTls.engine true
                [ToyTls.client; ToyTls.server; ToyTls.client]
                (mkQuicState true) with
        | Returned (calls, _) => calls
        | _ => []
        end))
  = 1%nat
  /\ warn_trace_tls (mkQuicState false) = false.
Proof.
  apply (trace_warning_once ToyTls.engine true
           [ToyTls.client; ToyTls.server; ToyTls.client]
           (mkQuicState true) (mkQuicState false)).
  vm_compute. reflexivity.
Defined.

(** X14: the name sent as SNI is the C string of the name the
    certificate is checked against.  After [InitializeTLS] a server has
    set neither.  A client whose hostname (as a C string) is numeric has
    set both to the empty name, so an IP address is never sent as SNI;
    any other client has given [SSL_set_tlsext_host_name] the hostname up
    to its first NUL and [X509_VERIFY_PARAM_set1_host] the whole
    hostname, and the two names are equal when the hostname holds no
    NUL. *)
Theorem sni_is_c_str_of_verified_name
    (T : TlsEngine) (trace_tls : bool) (session : QuicSession)
    (quic_state quic_state' : QuicState) (calls : list tls_call) :
  InitializeTLS T trace_tls session quic_state
  = Returned (calls, quic_state') ->
  sni_names calls = map c_str (verified_names calls)
  /\ sni_names calls
     = match side session with
       | NGTCP2_CRYPTO_SIDE_CLIENT =>
           [if is_numeric_host T (c_str (hostname session)) then []
            else c_str (hostname session)]
       | NGTCP2_CRYPTO_SIDE_SERVER => []
       end
  /\ (c_str (hostname session) = hostname session ->
      sni_names calls = verified_names calls).
Proof.
  destruct quic_state as [warn].
  tls_cases session;
    intros H; try discriminate H; injection H as <- _;
    (split; [reflexivity|]); (split; [reflexivity|]);
    intros Hc; unfold sni_names, verified_names; cbn [flat_map app];
    rewrite ?Hc; reflexivity.
Qed.

Lemma sni_is_c_str_of_verified_name_witness :
  let calls :=
    match InitializeTLS ToyTls.engine false ToyTls.nul_client
            (mkQuicState true) with
    | Returned (calls, _) => calls
    | _ => []
    end in
  sni_names calls = map c_str (verified_names calls)
  /\ sni_names calls = [[x61]]
  /\ (c_str [x61; x00; x62] = [x61; x00; x62] ->
      sni_names calls = verified_names calls).
Proof.
  apply (sni_is_c_str_of_verified_name ToyTls.engine false
           ToyTls.nul_client (mkQuicState true) (mkQuicState true)).
  vm_compute. reflexivity.
Defined.
